(** * Celfie Lock: LSB steganography codec (celfie.py)

    A shallow embedding of [encode], [decode] and [verify_image] of
    [src/celfie.py], of the placement of the text in [add_watermark] and of
    the demonstration script [src/example.py], with the properties of the
    hidden-region format, of the capacity check and of the error behaviour.

    Conventions of the embedding.
    - A Python [str] is the list of its code points ([list Z]); a [bytes] or
      [bytearray] value is a [list Byte.byte]; a Python [int] is a [Z].
    - An exception is an outcome [Raise e] of the [result] monad; a
      [try]/[except] block is a handler applied to such an outcome.
    - The file system is a finite map from paths to files; an image file holds
      the raster that [Image.open] followed by [convert('RGB')] yields. The
      save of line 256 is a parameter of [encode_with]; [encode] is its
      instance for an output path that can be written.
    - The libraries the module calls (zlib, Fernet, base64, os.path, the
      watermark drawing of PIL) are the fields of the class [Externals];
      their documented contracts are the class [ExternalsLaws].
    - [secrets.token_bytes] and the entropy of [Fernet.encrypt] are inputs
      (the record [randomness]).
    - [print] calls are progress narration and are left out, and so is
      [derive_key_from_image] (lines 39 to 65), which nothing calls. *)

From Stdlib Require Import ZArith Lia.
From Stdlib.Strings Require Import Byte Ascii String.
From stdpp Require Import base option list strings gmap.

Local Open Scope Z_scope.

(** ** Python values *)

Abbreviation byte := Byte.byte.
Abbreviation bytes := (list byte).
Abbreviation str := (list Z).

Global Instance byte_eq_dec : EqDecision byte := Byte.byte_eq_dec.

(** The integer a byte stands for, as Python gives it when [bytes] is
    iterated or indexed. *)
Definition byte_val (b : byte) : Z := Z.of_N (Byte.to_N b).

(** [bytearray.append(z)] and [bytes([z])]: defined for [0 <= z < 256]. *)
Definition byte_of_int (z : Z) : option byte :=
  if decide (0 <= z) then Byte.of_N (Z.to_N z) else None.

(** The low eight bits of [z] as a byte. *)
Definition to_byte (z : Z) : byte := default x00 (byte_of_int (z mod 256)).

(** [ord] of an ASCII character, and a [str] literal. *)
Definition ord (a : ascii) : Z := Z.of_N (N_of_ascii a).
Definition str_of (s : string) : str := ord <$> list_ascii_of_string s.

(** [l[a:b]] for [0 <= a <= b]. *)
Definition slice {A} (a b : nat) (l : list A) : list A := take (b - a) (drop a l).

(** [len(l)] *)
Definition len {A} (l : list A) : Z := Z.of_nat (length l).

(** ** Exceptions *)

Inductive exn :=
  | FileNotFoundError
  | UnidentifiedImageError
  | UnicodeEncodeError
  | UnicodeDecodeError
  | ValueError
  | IndexError
  | StructError
  | InvalidToken
  | ZlibError.

Inductive result (A : Type) :=
  | Return (a : A)
  | Raise (e : exn).
Arguments Return {A} a.
Arguments Raise {A} e.

Global Instance result_ret : MRet result := @Return.
Global Instance result_bind : MBind result := λ A B f m,
  match m with
  | Return a => f a
  | Raise e => Raise e
  end.

(** A library call that fails raises [e]. *)
Definition or_raise {A} (e : exn) (o : option A) : result A :=
  from_option Return (Raise e) o.

(** ** Constants (celfie.py, lines 33 to 36) *)

Definition SIGNATURE : str := str_of "CELFIE".
Definition VERSION : Z := 1.
Definition HEADER_SIZE : nat := 74.
Definition DELIMITER : bytes := [x00; xff; x00; xff; x00; xff; x00; xff].

(** ** The UTF-8 codec ([str.encode('utf-8')], [bytes.decode('utf-8')]) *)

Definition utf8_encode_char (c : Z) : option bytes :=
  if decide (0 <= c < 0x80) then Some [to_byte c]
  else if decide (0x80 <= c < 0x800) then
    Some [to_byte (0xC0 + c / 64); to_byte (0x80 + c mod 64)]
  else if decide (0x800 <= c < 0x10000) then
    if decide (0xD800 <= c <= 0xDFFF) then None
    else Some [to_byte (0xE0 + c / 4096); to_byte (0x80 + c / 64 mod 64);
               to_byte (0x80 + c mod 64)]
  else if decide (0x10000 <= c < 0x110000) then
    Some [to_byte (0xF0 + c / 262144); to_byte (0x80 + c / 4096 mod 64);
          to_byte (0x80 + c / 64 mod 64); to_byte (0x80 + c mod 64)]
  else None.

(** [None] is [UnicodeEncodeError] (a lone surrogate). *)
Definition utf8_encode (s : str) : option bytes :=
  chunks ← mapM utf8_encode_char s; Some (concat chunks).

Definition is_cont (v : Z) : bool := bool_decide (0x80 <= v <= 0xBF).

(** [None] is [UnicodeDecodeError]: a stray or missing continuation byte, an
    overlong form, a surrogate or a code point above [0x10FFFF]. *)
Fixpoint utf8_decode (bs : bytes) : option str :=
  match bs with
  | [] => Some []
  | b0 :: r0 =>
      let v0 := byte_val b0 in
      if decide (v0 < 0x80) then cons v0 <$> utf8_decode r0
      else if decide (0xC2 <= v0 <= 0xDF) then
        match r0 with
        | b1 :: r1 =>
            let v1 := byte_val b1 in
            if is_cont v1
            then cons (v0 mod 32 * 64 + v1 mod 64) <$> utf8_decode r1
            else None
        | _ => None
        end
      else if decide (0xE0 <= v0 <= 0xEF) then
        match r0 with
        | b1 :: b2 :: r2 =>
            let v1 := byte_val b1 in
            let v2 := byte_val b2 in
            let c := v0 mod 16 * 4096 + v1 mod 64 * 64 + v2 mod 64 in
            if is_cont v1 && is_cont v2
               && bool_decide (0x800 <= c) && negb (bool_decide (0xD800 <= c <= 0xDFFF))
            then cons c <$> utf8_decode r2
            else None
        | _ => None
        end
      else if decide (0xF0 <= v0 <= 0xF4) then
        match r0 with
        | b1 :: b2 :: b3 :: r3 =>
            let v1 := byte_val b1 in
            let v2 := byte_val b2 in
            let v3 := byte_val b3 in
            let c := v0 mod 8 * 262144 + v1 mod 64 * 4096 + v2 mod 64 * 64 + v3 mod 64 in
            if is_cont v1 && is_cont v2 && is_cont v3
               && bool_decide (0x10000 <= c < 0x110000)
            then cons c <$> utf8_decode r3
            else None
        | _ => None
        end
      else None
  end.

(** ** [struct.pack] and [struct.unpack] with a little-endian format *)

Fixpoint le_bytes (size : nat) (v : Z) : bytes :=
  match size with
  | O => []
  | S k => to_byte (v mod 256) :: le_bytes k (v / 256)
  end.

Fixpoint le_int (bs : bytes) : Z :=
  match bs with
  | [] => 0
  | b :: r => byte_val b + 256 * le_int r
  end.

(** Formats [I] (4 bytes) and [Q] (8 bytes): [None] is [struct.error], raised
    for a number outside the field's range. *)
Definition pack_uint (size : nat) (v : Z) : option bytes :=
  if decide (0 <= v < 2 ^ (8 * Z.of_nat size)) then Some (le_bytes size v) else None.

(** Format [<n>s]: the bytes truncated or null-padded to [n]. *)
Definition pack_s (size : nat) (b : bytes) : bytes :=
  take size (b ++ replicate size x00).

(** [struct.pack("<6sI32s16sQ8s", sig, version, key, salt, n, delim)] *)
Definition struct_pack_header
    (sig : bytes) (version : Z) (key salt : bytes) (n : Z) (delim : bytes)
    : option bytes :=
  v ← pack_uint 4 version;
  q ← pack_uint 8 n;
  Some (pack_s 6 sig ++ v ++ pack_s 32 key ++ pack_s 16 salt ++ q ++ pack_s 8 delim).

(** [struct.unpack("<I", b)[0]] with [size = 4], [struct.unpack("<Q", b)[0]]
    with [size = 8]: [None] is [struct.error], raised for a buffer of another
    length. *)
Definition unpack_uint (size : nat) (b : bytes) : option Z :=
  if decide (length b = size) then Some (le_int b) else None.

(** ** Bit strings *)

Fixpoint bin_digits (p : positive) : str :=
  match p with
  | xH => [ord "1"]
  | xO q => bin_digits q ++ [ord "0"]
  | xI q => bin_digits q ++ [ord "1"]
  end.

Definition zero_pad (width : nat) (digits : str) : str :=
  replicate (width - length digits) (ord "0") ++ digits.

(** [format(n, '08b')]: the binary digits of [n], zero-padded to a width of
    eight characters (the sign of a negative number counts in the width). *)
Definition format_08b (n : Z) : str :=
  match n with
  | Z0 => zero_pad 8 [ord "0"]
  | Zpos p => zero_pad 8 (bin_digits p)
  | Zneg p => ord "-" :: zero_pad 7 (bin_digits p)
  end.

(** [''.join(format(b, '08b') for b in data)] *)
Definition bit_string (data : bytes) : str :=
  concat ((λ b, format_08b (byte_val b)) <$> data).

Definition digit2 (c : Z) : option Z :=
  if decide (c = ord "0") then Some 0
  else if decide (c = ord "1") then Some 1
  else None.

(** [int(s, 2)] for a string of binary digits; [None] is [ValueError] (the
    forms with a sign, a prefix, blanks or underscores do not occur: every
    string the module parses is made of [str(v & 1)]). *)
Definition int_base2 (s : str) : option Z :=
  match s with
  | [] => None
  | _ => foldl (λ acc c, a ← acc; d ← digit2 c; Some (2 * a + d)) (Some 0) s
  end.

(** [int(ch)] for one character: its value as a decimal digit; [None] is
    [ValueError]. *)
Definition int_of_char (c : Z) : option Z :=
  if decide (ord "0" <= c <= ord "9") then Some (c - ord "0") else None.

(** [str(v & 1)] *)
Definition str_lsb (v : Z) : str :=
  if decide (Z.land v 1 = 0) then [ord "0"] else [ord "1"].

(** [range(0, stop, step)] *)
Definition range_step (stop step : nat) : list nat :=
  (λ k, k * step)%nat <$> seq 0 ((stop + step - 1) / step)%nat.

(** One turn of the loop of lines 303 to 307 and 336 to 340:
<<
    out = bytearray()
    for i in range(0, len(bits), 8):
        if i + 8 <= len(bits):
            byte = bits[i:i+8]
            out.append(int(byte, 2))
>>
    [None] is a [ValueError] of [int] or of [append]. *)
Definition append_group (bits : str) (out : option bytes) (i : nat) : option bytes :=
  acc ← out;
  if decide (i + 8 <= length bits)%nat then
    v ← int_base2 (slice i (i + 8) bits);
    b ← byte_of_int v;
    Some (acc ++ [b])
  else Some acc.

Definition bytes_of_bit_string (bits : str) : option bytes :=
  foldl (append_group bits) (Some []) (range_step (length bits) 8).

(** [''.join(str(flat_img[i] & 1) for i in range(start, start + count))];
    [None] is the [IndexError] of [flat_img[i]]. *)
Definition lsb_string (flat_img : list Z) (start count : nat) : option str :=
  chunks ← mapM (λ i, str_lsb <$> flat_img !! i) (seq start count);
  Some (concat chunks).

(** The two steps [decode] takes twice, for the header (lines 302 to 307)
    and for the ciphertext (lines 334 to 340): read [count] low bits from
    index [start] on, then group them into bytes. *)
Definition read_bytes (flat_img : list Z) (start count : nat) : result bytes :=
  bits ← or_raise IndexError (lsb_string flat_img start count);
  or_raise ValueError (bytes_of_bit_string bits).

(** ** Images and the file system *)

Definition pixel : Type := Z * Z * Z.

(** An RGB image: [img.size] and [img.getdata()]. *)
Record image := Image { width : Z; height : Z; getdata : list pixel }.

(** PIL keeps one pixel per position, each band an unsigned byte. *)
Definition pixel_ok (p : pixel) : Prop :=
  let '(r, g, b) := p in 0 <= r < 256 ∧ 0 <= g < 256 ∧ 0 <= b < 256.

Record image_ok (img : image) : Prop := {
  image_ok_size : len (getdata img) = width img * height img;
  image_ok_bands : Forall pixel_ok (getdata img);
}.

Inductive file :=
  | ImageFile (img : image)
  | OtherFile.

Abbreviation filesystem := (gmap string file).

(** The state and exception monad of the module's entry points. *)
Definition M (A : Type) : Type := filesystem → result A * filesystem.

Global Instance M_ret : MRet M := λ A a fs, (Return a, fs).
Global Instance M_bind : MBind M := λ A B f m fs,
  match m fs with
  | (Return a, fs') => f a fs'
  | (Raise e, fs') => (Raise e, fs')
  end.

Definition raise {A} (e : exn) : M A := λ fs, (Raise e, fs).
Definition lift {A} (r : result A) : M A := λ fs, (r, fs).

(** [try: body except ...: handler] *)
Definition try_except {A} (body : result A) (handler : exn → result A) : result A :=
  match body with
  | Return a => Return a
  | Raise e => handler e
  end.

Definition try_except_M {A} (body : M A) (handler : exn → M A) : M A := λ fs,
  match body fs with
  | (Return a, fs') => (Return a, fs')
  | (Raise e, fs') => handler e fs'
  end.

(** [os.path.exists(path)] *)
Definition os_path_exists (path : string) : M bool :=
  λ fs, (Return (bool_decide (is_Some (fs !! path))), fs).

(** [Image.open(path)], converted to RGB when its mode is another one. *)
Definition Image_open (path : string) : M image := λ fs,
  match fs !! path with
  | Some (ImageFile img) => (Return img, fs)
  | Some OtherFile => (Raise UnidentifiedImageError, fs)
  | None => (Raise FileNotFoundError, fs)
  end.

(** [img.save(path, format='PNG', optimize=False, compress_level=0)] on a
    path that can be written: a lossless format, the file holds the raster
    as it is. On a path that cannot be written (a missing directory, a
    read-only location) the call of PIL raises an [OSError]; the file
    systems of this model have no such paths, and [encode_with] below takes
    the save as a parameter for the statements that do not rely on it. *)
Definition Image_save (path : string) (img : image) : M () :=
  λ fs, (Return (), <[path := ImageFile img]> fs).

(** Lines 235 to 238 and 296 to 299:
<<
    flat_img = []
    for pixel in pixels:
        flat_img.extend(pixel)
>> *)
Definition flatten (pixels : list pixel) : list Z :=
  foldl (λ flat_img '(r, g, b), flat_img ++ [r; g; b]) [] pixels.

(** Lines 246 to 250, with [channels = 3]:
<<
    for i in range(0, len(flat_img), channels):
        pixel = tuple(flat_img[i:i+channels])
        new_pixels.append(pixel)
>>
    [flat_img] holds three entries per pixel, so every slice is a triple. *)
Fixpoint regroup (flat_img : list Z) : list pixel :=
  match flat_img with
  | r :: g :: b :: rest => (r, g, b) :: regroup rest
  | _ => []
  end.

(** ** The libraries the module calls *)

Class Externals := {
  (** What [Fernet.encrypt] draws: its initialisation vector and the time. *)
  entropy : Type;
  (** The position, opacity, font and size of a watermark. *)
  watermark_style : Type;
  (** [zlib.compress(data, level=9)] *)
  zlib_compress : bytes → bytes;
  (** [zlib.decompress(data)]; [None] is [zlib.error]. *)
  zlib_decompress : bytes → option bytes;
  (** [base64.urlsafe_b64encode(key)] *)
  urlsafe_b64encode : bytes → bytes;
  (** [Fernet(key).encrypt(data)], for the encoding of a 32-byte key. *)
  fernet_encrypt : bytes → entropy → bytes → bytes;
  (** [Fernet(key).decrypt(token)]; [None] is [InvalidToken]. *)
  fernet_decrypt : bytes → bytes → option bytes;
  (** [add_watermark(img, text, position, opacity, font_name, font_size)],
      lines 68 to 137: PIL drawing on a copy of the image. *)
  add_watermark : image → string → watermark_style → image;
  (** [os.path.splitext(path)[0]] *)
  splitext_root : string → string;
}.

(** The contracts the codec relies on. *)
Class ExternalsLaws (E : Externals) : Prop := {
  zlib_round_trip d : zlib_decompress (zlib_compress d) = Some d;
  fernet_round_trip key e d :
    length key = 32%nat →
    fernet_decrypt (urlsafe_b64encode key)
                   (fernet_encrypt (urlsafe_b64encode key) e d) = Some d;
  add_watermark_size img text style :
    width (add_watermark img text style) = width img
    ∧ height (add_watermark img text style) = height img;
  add_watermark_ok img text style :
    image_ok img → image_ok (add_watermark img text style);
}.

(** ** [str] methods on paths *)

Definition lower_ascii (a : ascii) : ascii :=
  let n := N_of_ascii a in
  if decide (65 <= n <= 90)%N then ascii_of_N (n + 32) else a.

(** [path.lower()] *)
Definition lower (path : string) : string :=
  string_of_list_ascii (lower_ascii <$> list_ascii_of_string path).

(** [path.endswith(suffix)] *)
Definition endswith (path suffix : string) : bool :=
  let n := String.length path in
  let k := String.length suffix in
  bool_decide (k ≤ n)%nat && String.eqb (substring (n - k) k path) suffix.

Section Celfie.
Context `{E : Externals}.

(** The outcome of [secrets.token_bytes(32)], of [secrets.token_bytes(16)]
    and of the draws of [Fernet.encrypt]. *)
Record randomness := Randomness {
  random_key : bytes;
  salt : bytes;
  fernet_entropy : entropy;
}.

Record randomness_ok (rnd : randomness) : Prop := {
  random_key_length : length (random_key rnd) = 32%nat;
  salt_length : length (salt rnd) = 16%nat;
}.

(** ** [encode] (lines 140 to 263) *)

(** Lines 193 to 196: [if link: full_message = f"{message}\nLINK:{link}"]. *)
Definition full_message (message link : str) : str :=
  if decide (link = []) then message
  else message ++ [10] ++ str_of "LINK:" ++ link.

(** Line 199 *)
Definition message_bytes (message link : str) : result bytes :=
  or_raise UnicodeEncodeError (utf8_encode (full_message message link)).

(** Lines 200 to 209 *)
Definition encrypted_data (message link : str) (rnd : randomness) : result bytes :=
  message_bytes ← message_bytes message link;
  let compressed_data := zlib_compress message_bytes in
  let encryption_key := urlsafe_b64encode (random_key rnd) in
  Return (fernet_encrypt encryption_key (fernet_entropy rnd) compressed_data).

(** Lines 214 to 223 *)
Definition header (rnd : randomness) (data_length : Z) : result bytes :=
  signature_bytes ← or_raise UnicodeEncodeError (utf8_encode SIGNATURE);
  or_raise StructError
    (struct_pack_header signature_bytes VERSION (random_key rnd) (salt rnd)
                        data_length DELIMITER).

(** Line 226 *)
Definition data_to_hide (message link : str) (rnd : randomness) : result bytes :=
  encrypted_data ← encrypted_data message link rnd;
  header ← header rnd (len encrypted_data);
  Return (header ++ encrypted_data).

(** Line 227 *)
Definition binary_data (message link : str) (rnd : randomness) : result str :=
  data_to_hide ← data_to_hide message link rnd;
  Return (bit_string data_to_hide).

(** Lines 241 to 243:
<<
    for i, bit in enumerate(binary_data):
        if i < len(flat_img):
            flat_img[i] = (flat_img[i] & 0xFE) | int(bit)
>> *)
Fixpoint embed_loop (flat_img : list Z) (i : nat) (binary_data : str)
    : result (list Z) :=
  match binary_data with
  | [] => Return flat_img
  | bit :: rest =>
      if decide (i < length flat_img)%nat then
        v ← or_raise IndexError (flat_img !! i);
        b ← or_raise ValueError (int_of_char bit);
        embed_loop (<[i := Z.lor (Z.land v 0xFE) b]> flat_img) (S i) rest
      else embed_loop flat_img (S i) rest
  end.

(** [if watermark_text:] *)
Definition truthy (text : option string) : bool :=
  match text with
  | Some s => negb (String.eqb s "")
  | None => false
  end.

(** The image the message is hidden in: the input, watermarked on request
    (lines 183 to 186). *)
Definition carrier (img : image) (watermark_text : option string)
    (style : watermark_style) : image :=
  if truthy watermark_text
  then add_watermark img (default ""%string watermark_text) style
  else img.

(** Lines 189 to 191 *)
Definition png_path (output_path : string) : string :=
  if negb (endswith (lower output_path) ".png")
  then (splitext_root output_path +:+ ".png")%string
  else output_path.

(** The body of [encode], with the call [encoded_img.save] of line 256 as
    the parameter [save]. [link] is [None] when the caller leaves the
    argument out; its default is the empty string. *)
Definition encode_with (save : string → image → M ())
    (input_path output_path : string) (message : str)
    (link : option str) (watermark_text : option string)
    (style : watermark_style) (rnd : randomness) : M bool :=
  let link := default [] link in
  found ← os_path_exists input_path;
  if negb found then raise FileNotFoundError else
  img ← Image_open input_path;
  let width := width img in
  let height := height img in
  let img := carrier img watermark_text style in
  let output_path := png_path output_path in
  binary_data ← lift (binary_data message link rnd);
  let capacity := width * height * 3 in
  if decide (len binary_data > capacity) then raise ValueError else
  let pixels := getdata img in
  let flat_img := flatten pixels in
  flat_img ← lift (embed_loop flat_img 0 binary_data);
  let new_pixels := regroup flat_img in
  let encoded_img := Image width height new_pixels in
  save output_path encoded_img;;
  created ← os_path_exists output_path;
  if negb created then raise FileNotFoundError else
  mret true.

(** [encode] on a file system where the output path can be written. *)
Definition encode (input_path output_path : string) (message : str)
    (link : option str) (watermark_text : option string)
    (style : watermark_style) (rnd : randomness) : M bool :=
  encode_with Image_save input_path output_path message link watermark_text style rnd.

(** ** [decode] (lines 266 to 358) *)

(** Lines 342 to 348: decrypt, decompress, decode as UTF-8. *)
Definition unframe (encryption_key encrypted_data : bytes) : result str :=
  let fernet_key := urlsafe_b64encode encryption_key in
  compressed_data ← or_raise InvalidToken (fernet_decrypt fernet_key encrypted_data);
  message_bytes ← or_raise ZlibError (zlib_decompress compressed_data);
  or_raise UnicodeDecodeError (utf8_decode message_bytes).

(** Lines 301 to 358, on the flat channel buffer. The header is read before
    the [try] block is entered; both [except] clauses return [None]. *)
Definition decode_flat (flat_img : list Z) : result (option str) :=
  header_bytes ← read_bytes flat_img 0 (HEADER_SIZE * 8);
  try_except
    (signature ← or_raise UnicodeDecodeError (utf8_decode (take 6 header_bytes));
     if decide (signature ≠ SIGNATURE) then Return None else
     version ← or_raise StructError (unpack_uint 4 (slice 6 10 header_bytes));
     let encryption_key := slice 10 42 header_bytes in
     let salt := slice 42 58 header_bytes in
     data_length ← or_raise StructError (unpack_uint 8 (slice 58 66 header_bytes));
     let max_data := len flat_img - Z.of_nat HEADER_SIZE * 8 in
     if decide (data_length > max_data ∨ data_length > 10000000) then Return None else
     let data_start := (HEADER_SIZE * 8)%nat in
     encrypted_data ← read_bytes flat_img data_start (Z.to_nat (data_length * 8));
     message ← unframe encryption_key encrypted_data;
     Return (Some message))
    (λ e, match e with
          | StructError => Return None
          | _ => Return None
          end).

Definition decode (image_path : string) : M (option str) :=
  found ← os_path_exists image_path;
  if negb found then raise FileNotFoundError else
  img ← Image_open image_path;
  let pixels := getdata img in
  let flat_img := flatten pixels in
  lift (decode_flat flat_img).

(** ** [verify_image] (lines 361 to 375) *)

Definition verify_image (image_path : string) : M bool :=
  try_except_M
    (result ← decode image_path;
     mret (bool_decide (result ≠ None)))
    (λ _, mret false).

End Celfie.

(** ** A reference instance of the libraries

    A stand-in that satisfies [ExternalsLaws], used to run the codec on
    concrete inputs: compression prefixes the two bytes of a zlib header,
    encryption prefixes the Fernet version byte and the key, decryption
    checks both. *)
Module Reference.

Definition compress (d : bytes) : bytes := x78 :: xda :: d.

Definition decompress (d : bytes) : option bytes :=
  match d with
  | x78 :: xda :: r => Some r
  | _ => None
  end.

Definition encrypt (key : bytes) (_ : ()) (d : bytes) : bytes :=
  x80 :: key ++ d.

Definition decrypt (key token : bytes) : option bytes :=
  match token with
  | x80 :: r =>
      if decide (take (length key) r = key) then Some (drop (length key) r) else None
  | _ => None
  end.

(** The path up to its last dot. *)
Definition root (path : string) : string :=
  let cs := list_ascii_of_string path in
  match list_find (λ c, c = "."%char) (reverse cs) with
  | Some (i, _) => string_of_list_ascii (take (length cs - S i) cs)
  | None => path
  end.

Global Instance externals : Externals := {|
  entropy := ();
  watermark_style := ();
  zlib_compress := compress;
  zlib_decompress := decompress;
  urlsafe_b64encode := id;
  fernet_encrypt := encrypt;
  fernet_decrypt := decrypt;
  add_watermark := λ img _ _, img;
  splitext_root := root;
|}.

End Reference.

(** ** [add_watermark]: where the text goes (lines 97 to 131)

    The drawing itself is PIL's; what the function computes is the size of
    the text, its position and the order of the five [draw.text] calls. *)

(** Lines 98 to 104: the size of the text, from the bounding box
    [draw.textbbox] gives for a font, or eight pixels a character and
    sixteen high when no font could be loaded. *)
Definition text_size (bbox : option (Z * Z * Z * Z)) (text : str) : Z * Z :=
  match bbox with
  | Some (x0, y0, x1, y1) => (x1 - x0, y1 - y0)
  | None => (len text * 8, 16)
  end.

(** Lines 108 to 116: the dictionary of the five named positions. *)
Definition positions (width height text_width text_height : Z) : gmap string (Z * Z) :=
  let padding := 20 in
  {[ "top-left"%string := (padding, padding);
     "top-right"%string := (width - text_width - padding, padding);
     "bottom-left"%string := (padding, height - text_height - padding);
     "bottom-right"%string :=
       (width - text_width - padding, height - text_height - padding);
     "center"%string := ((width - text_width) / 2, (height - text_height) / 2) ]}.

(** Line 118: [positions.get(position, positions['bottom-right'])]; [None]
    is the [KeyError] of the default's lookup. *)
Definition watermark_pos (position : string) (width height text_width text_height : Z)
    : option (Z * Z) :=
  let positions := positions width height text_width text_height in
  fallback ← positions !! "bottom-right"%string;
  Some (default fallback (positions !! position)).

(** A call [draw.text(xy, text, fill=colour)]. *)
Record draw_text := DrawText { xy : Z * Z; drawn : str; fill : Z * Z * Z }.

(** The rectangle (left, top, right, bottom) a call covers: PIL draws the
    text relative to the anchor [xy], so the box [draw.textbbox((0, 0), ...)]
    measured at the origin is moved by [xy]. *)
Definition covered (bbox : Z * Z * Z * Z) (call : draw_text) : Z * Z * Z * Z :=
  let '(x0, y0, x1, y1) := bbox in
  ((xy call).1 + x0, (xy call).2 + y0, (xy call).1 + x1, (xy call).2 + y1).

(** Lines 121 to 131: four shadows in black, then the text in white. *)
Definition watermark_calls (pos : Z * Z) (text : str) : list draw_text :=
  ((λ '(offset_x, offset_y), DrawText (pos.1 + offset_x, pos.2 + offset_y) text (0, 0, 0))
     <$> [(1, 1); (-1, -1); (1, -1); (-1, 1)])
  ++ [DrawText pos text (255, 255, 255)].

(** ** The demonstration script, [main] of example.py (lines 13 to 94)

    What the script prints is left out; its outcome records the branch it
    took and the two values it prints last. *)

(** Line 24 *)
Definition sample_images : list string :=
  ["sample.jpg"; "sample.png"; "test.jpg"; "test.png"]%string.

(** Lines 27 to 30:
<<
    for img in sample_images:
        if os.path.exists(img):
            input_image = img
            break
>> *)
Fixpoint find_input (images : list string) : M (option string) :=
  match images with
  | [] => mret (M := M) None
  | img :: rest =>
      found ← os_path_exists img;
      if found : bool then mret (M := M) (Some img) else find_input rest
  end.

(** Lines 46 and 47 *)
Definition secret_message : str := str_of "This is a secret message hidden by Celfie Lock!".
Definition secret_link : str := str_of "https://ko-fi.com/celfielock".

Inductive demo_outcome :=
  (** Line 42: no sample image, the script returns. *)
  | NoSample
  (** Line 68: [encode] raised, the script prints the error and returns. *)
  | EncodeFailed (e : exn)
  (** Line 87: the script ran to its end with these values of
      [decoded_message] and [is_celfie]. *)
  | Finished (decoded_message : option str) (is_celfie : bool)
  (** Line 86: [decode] raised [e], which line 78 caught, and
      [decoded_message] is read unbound: an [UnboundLocalError] leaves
      [main]. *)
  | Unbound (e : exn)
  (** An exception no handler covers leaves [main]. *)
  | Propagated (e : exn).

Section Demo.
Context `{E : Externals}.

(** [demo_style] stands for the arguments [watermark_position="bottom-right"]
    and [watermark_opacity=0.7] of line 56 with the default font and size. *)
Definition main (demo_style : watermark_style) (rnd : randomness)
    : filesystem → demo_outcome * filesystem := λ fs,
  match find_input sample_images fs with
  | (Raise e, fs) => (Propagated e, fs)
  | (Return None, fs) => (NoSample, fs)
  | (Return (Some input_image), fs) =>
      let output_image := "protected_demo.png"%string in
      match encode input_image output_image secret_message (Some secret_link)
                   (Some "Protected by Celfie"%string) demo_style rnd fs with
      | (Raise e, fs) => (EncodeFailed e, fs)
      | (Return success, fs) =>
          match decode output_image fs with
          | (Return decoded_message, fs) =>
              (Finished decoded_message (bool_decide (decoded_message ≠ None)), fs)
          | (Raise e, fs) => (Unbound e, fs)
          end
      end
  end.

End Demo.

(** * Definitions the statements use *)

(** The code points [str.encode] accepts: the Unicode scalar values. *)
Definition scalar_value (c : Z) : Prop :=
  0 <= c < 0x110000 ∧ ¬ (0xD800 <= c <= 0xDFFF).

(** The characters of a bit string. *)
Definition is_bit (c : Z) : Prop := c = ord "0" ∨ c = ord "1".

(** The character of one bit. *)
Definition bit_char (bit : bool) : Z := if bit then ord "1" else ord "0".

(** The eight bits of [v], the most significant first. *)
Definition bits_msb_first (v : Z) : str :=
  (λ k : nat, bit_char (Z.testbit v (Z.of_nat k))) <$> [7; 6; 5; 4; 3; 2; 1; 0]%nat.

(** The number whose binary digits, the most significant first, are the low
    bits of [vs]. *)
Definition of_lsbs (vs : list Z) : Z := foldl (λ acc v, 2 * acc + Z.land v 1) 0 vs.

(** The character [str(v & 1)] consists of. *)
Definition lsb_char (v : Z) : Z := bit_char (negb (bool_decide (Z.land v 1 = 0))).

(** The low bit of a channel value. *)
Definition lsb (v : Z) : Z := Z.land v 1.

(** The byte the loop of [bytes_of_bit_string] appends at its [k]-th turn. *)
Definition chunk_byte (bits : str) (k : nat) : option byte :=
  v ← int_base2 (slice (k * 8) (k * 8 + 8) bits); byte_of_int v.

(** The byte read from eight consecutive entries: their low bits, the first
    entry giving the most significant bit. *)
Definition byte_at (flat_img : list Z) (start k : nat) : byte :=
  to_byte (of_lsbs (slice (start + k * 8) (start + k * 8 + 8) flat_img)).

(** The value line 243 stores for the entry [v] and the character [c]. *)
Definition embed_value (v c : Z) : Z := Z.lor (Z.land v 0xFE) (c - ord "0").

(** The channel values of one pixel. *)
Definition bands (p : pixel) : list Z := let '(r, g, b) := p in [r; g; b].

(** [SIGNATURE.encode('utf-8')], the bytes of "CELFIE". *)
Definition SIGNATURE_BYTES : bytes := [x43; x45; x4c; x46; x49; x45].

(** The packed header, field after field. *)
Definition header_layout (version : Z) (key salt : bytes) (n : Z) : bytes :=
  SIGNATURE_BYTES ++ le_bytes 4 version ++ key ++ salt ++ le_bytes 8 n ++ DELIMITER.

(** The 74 header bytes a raster of at least 592 entries carries, and the
    fields [decode] takes from them. *)
Definition header_of (flat_img : list Z) : bytes :=
  byte_at flat_img 0 <$> seq 0 HEADER_SIZE.

Definition payload_length (flat_img : list Z) : Z :=
  le_int (slice 58 66 (header_of flat_img)).

Definition embedded_key (flat_img : list Z) : bytes :=
  slice 10 42 (header_of flat_img).

(** The signature check of lines 311 and 312 passes. *)
Definition has_signature (flat_img : list Z) : Prop :=
  utf8_decode (take 6 (header_of flat_img)) = Some SIGNATURE.

(** Lines 334 to 351 inside the [try] block of [decode]: read the ciphertext
    and unframe it. *)
Definition read_payload `{E : Externals}
    (flat_img : list Z) (encryption_key : bytes) (data_length : Z)
    : result (option str) :=
  try_except
    (encrypted_data ← read_bytes flat_img (HEADER_SIZE * 8) (Z.to_nat (data_length * 8));
     message ← unframe encryption_key encrypted_data;
     Return (Some message))
    (λ _, Return None).

(** ** Concrete inputs, run on the reference instance *)

Module Examples.
Import Reference.

Definition rnd0 : randomness := Randomness (replicate 32 x41) (replicate 16 x42) ().

(** A 20 by 20 image of one colour: 1200 channel values. *)
Definition img0 : image := Image 20 20 (replicate 400 (255, 128, 7)).

Definition fs0 : filesystem := {[ "in.png"%string := ImageFile img0 ]}.

(** A 14 by 14 image: 588 channel values, four short of a header. *)
Definition tiny_image : image := Image 14 14 (replicate 196 (0, 0, 0)).

Definition tiny_fs : filesystem := {[ "tiny.png"%string := ImageFile tiny_image ]}.

(** The low bits of [data] written over a raster of zeros of [size] entries. *)
Definition raster_of (data : bytes) (size : nat) : list Z :=
  match embed_loop (replicate size 0) 0 (bit_string data) with
  | Return flat_img => flat_img
  | Raise _ => []
  end.

(** The ciphertext of the message "hi" under [rnd0]. *)
Definition hi_ciphertext : bytes :=
  encrypt (random_key rnd0) () (compress [x68; x69]).

(** The raster of the file [encode] writes for the message "hi". *)
Definition stego_raster : list Z :=
  match (encode "in.png" "out.png" (str_of "hi") None None () rnd0 fs0).2
          !! "out.png"%string with
  | Some (ImageFile img) => flatten (getdata img)
  | _ => []
  end.

(** The low bit of the entries 528 to 591 cleared: the delimiter field
    then holds eight zero bytes. *)
Definition clear_delimiter_bits (flat_img : list Z) : list Z :=
  take 528 flat_img ++ ((λ v, Z.land v 0xFE) <$> slice 528 592 flat_img)
  ++ drop 592 flat_img.

Definition bad_delimiter_raster : list Z := clear_delimiter_bits stego_raster.

(** A valid signature and a payload length of [2 ^ 40] over 600 entries. *)
Definition overlong_raster : list Z :=
  raster_of (header_layout VERSION (random_key rnd0) (salt rnd0) (2 ^ 40)) 600.

End Examples.

(** Images at the capacity boundary. *)
Module CapacityExamples.
Import Reference.

(** The payload of "hi" takes 111 bytes, 888 bits: an image of 8 by 37
    pixels holds exactly that many channel values, one of 8 by 36 does not. *)
Definition exact_img : image := Image 8 37 (replicate 296 (10, 20, 30)).
Definition small_img : image := Image 8 36 (replicate 288 (10, 20, 30)).
Definition exact_fs : filesystem := {[ "in.png"%string := ImageFile exact_img ]}.
Definition small_fs : filesystem := {[ "in.png"%string := ImageFile small_img ]}.
Definition hi_data : bytes :=
  header_layout VERSION (random_key Examples.rnd0) (salt Examples.rnd0)
                (len Examples.hi_ciphertext)
  ++ Examples.hi_ciphertext.

End CapacityExamples.

(** [n] characters below 128 drawn by a linear congruential generator: a
    text no general-purpose compressor shortens by much. *)
Fixpoint lcg_text (n : nat) (x : Z) : str :=
  match n with
  | O => []
  | S k => x / 2 ^ 25 mod 128 :: lcg_text k ((1664525 * x + 1013904223) mod 2 ^ 32)
  end.

(** Messages whose ciphertext is longer than the ceiling of line 328, and
    images of 8000 by 5000 and of 9000 by 5000 pixels: 120,000,000 and
    135,000,000 channel values. *)
Module CeilingExamples.

Definition big_message : str := lcg_text (Z.to_nat 10000000) 42.
Definition big_img : image := Image 8000 5000 (replicate (Z.to_nat 40000000) (0, 0, 0)).
Definition big_fs : filesystem := {[ "in.png"%string := ImageFile big_img ]}.

Definition bigger_message : str := lcg_text (Z.to_nat 12000000) 7.
Definition wide_img : image := Image 9000 5000 (replicate (Z.to_nat 45000000) (0, 0, 0)).
Definition wide_fs : filesystem := {[ "in.png"%string := ImageFile wide_img ]}.

End CeilingExamples.

(** Inputs of the demonstration script, of a second [encode] and of
    [decode] on rasters that differ in the fields it does not read. *)
Module MoreExamples.
Import Reference.

(** A 24 by 24 image under the second name the script looks for, and a
    smaller one under the third. *)
Definition sample : image := Image 24 24 (replicate 576 (200, 100, 50)).

Definition demo_fs : filesystem :=
  {[ "sample.png"%string := ImageFile sample;
     "test.jpg"%string := ImageFile Examples.tiny_image ]}.

(** A file system without any of the names the script looks for. *)
Definition other_fs : filesystem := {[ "photo.png"%string := ImageFile sample ]}.

(** A raster of 600 zeros: it carries no signature. *)
Definition blank_raster : list Z := replicate 600 0.

(** The low bit of the entries [a] to [b - 1] inverted. *)
Definition flip_low_bits (a b : nat) (flat_img : list Z) : list Z :=
  take a flat_img ++ ((λ v, Z.lxor v 1) <$> slice a b flat_img) ++ drop b flat_img.

(** The raster [encode] wrote for "hi" with the bits of its version, salt
    and delimiter fields inverted. *)
Definition other_fields_raster : list Z :=
  flip_low_bits 48 80 (flip_low_bits 336 464 (flip_low_bits 528 592 Examples.stego_raster)).


(** The framed payload of the script's message and link under [rnd0]. *)
Definition demo_data : bytes :=
  match data_to_hide secret_message secret_link Examples.rnd0 with
  | Return D => D
  | Raise _ => []
  end.

End MoreExamples.

(** ** A recorded run of the libraries

    The values zlib, base64 and Fernet give at the inputs of one run of
    [encode]: the message "hi" under a key of 32 letters A, with the
    initialisation vector 00 01 ... 0f drawn at the time 1700000000. The
    base-64 encoding is the function itself; elsewhere the compression and
    the cipher are the stand-in of [Reference]. *)
Module Recorded.

(** The alphabet of [base64.urlsafe_b64encode]. *)
Definition b64_char (n : Z) : byte :=
  to_byte (if decide (n < 26) then ord "A" + n
           else if decide (n < 52) then ord "a" + (n - 26)
           else if decide (n < 62) then ord "0" + (n - 52)
           else if decide (n = 62) then ord "-" else ord "_").

(** [base64.urlsafe_b64encode(data)]: three bytes give four characters, the
    last group is padded with [=]. *)
Fixpoint b64encode (data : bytes) : bytes :=
  match data with
  | a :: b :: c :: rest =>
      let n := byte_val a * 65536 + byte_val b * 256 + byte_val c in
      b64_char (n / 262144) :: b64_char (n / 4096 mod 64)
        :: b64_char (n / 64 mod 64) :: b64_char (n mod 64) :: b64encode rest
  | [a; b] =>
      let n := byte_val a * 1024 + byte_val b * 4 in
      [b64_char (n / 4096); b64_char (n / 64 mod 64); b64_char (n mod 64); x3d]
  | [a] =>
      let n := byte_val a * 16 in
      [b64_char (n / 64); b64_char (n mod 64); x3d; x3d]
  | [] => []
  end.

Definition key : bytes := replicate 32 x41.

(** [b"hi"] and [zlib.compress(b"hi", level=9)]. *)
Definition hi : bytes := [x68; x69].
Definition compressed_hi : bytes := [x78; xda; xcb; xc8; x04; x00; x01; x3b; x00; xd2].

(** [Fernet(urlsafe_b64encode(key)).encrypt(compressed_hi)] for that vector
    and time: the version byte, the time, the vector, one AES block and the
    HMAC, 73 bytes, in base 64. *)
Definition token_hi : bytes :=
  list_byte_of_string
    "gAAAAABlU_EAAAECAwQFBgcICQoLDA0OD8dm4EpKtqRM974LXdovwBTzXgk9mZF7H35dQXfWdYnmAzF3hxaCKTFtq5L9eLLo0g==".

Definition compress (d : bytes) : bytes :=
  if decide (d = hi) then compressed_hi else Reference.compress d.

Definition decompress (d : bytes) : option bytes :=
  if decide (d = compressed_hi) then Some hi else Reference.decompress d.

Definition encrypt (k : bytes) (e : ()) (d : bytes) : bytes :=
  if decide (k = b64encode key ∧ d = compressed_hi) then token_hi
  else Reference.encrypt k e d.

Definition decrypt (k token : bytes) : option bytes :=
  if decide (k = b64encode key ∧ token = token_hi) then Some compressed_hi
  else Reference.decrypt k token.

Definition externals : Externals := {|
  entropy := ();
  watermark_style := ();
  zlib_compress := compress;
  zlib_decompress := decompress;
  urlsafe_b64encode := b64encode;
  fernet_encrypt := encrypt;
  fernet_decrypt := decrypt;
  add_watermark := λ img _ _, img;
  splitext_root := Reference.root;
|}.

Definition rnd : randomness (E := externals) :=
  Randomness (E := externals) key (replicate 16 x42) ().

(** A 24 by 24 image of one colour: 1728 channel values, enough for the 74
    header bytes and the 100 bytes of the token. *)
Definition img : image := Image 24 24 (replicate 576 (255, 128, 7)).

Definition fs : filesystem := {[ "in.png"%string := ImageFile img ]}.

(** The raster of the file [encode] writes for the message "hi". *)
Definition stego_raster : list Z :=
  match (encode (E := externals) "in.png" "out.png" (str_of "hi") None None () rnd fs).2
          !! "out.png"%string with
  | Some (ImageFile out) => flatten (getdata out)
  | _ => []
  end.

(** That raster with the low bits of its delimiter field cleared, and a
    file that holds it. *)
Definition bad_delimiter_raster : list Z := Examples.clear_delimiter_bits stego_raster.

Definition bad_delimiter_image : image := Image 24 24 (regroup bad_delimiter_raster).

Definition bad_fs : filesystem := {[ "bad.png"%string := ImageFile bad_delimiter_image ]}.

End Recorded.

(** * Properties *)

(** ** The embedding at work *)

Example format_08b_5 : format_08b 5 = str_of "00000101".
Proof. reflexivity. Qed.

Example bit_string_CE : bit_string [x43; x45] = str_of "0100001101000101".
Proof. reflexivity. Qed.

Example bytes_of_bit_string_skips_short_group :
  bytes_of_bit_string (str_of "010000110100") = Some [x43].
Proof. reflexivity. Qed.

Example utf8_encode_non_ascii :
  utf8_encode [0xE9; 0x4F60; 0x1F600] = Some [xc3; xa9; xe4; xbd; xa0; xf0; x9f; x98; x80].
Proof. reflexivity. Qed.

Example utf8_encode_lone_surrogate : utf8_encode [0x61; 0xD800] = None.
Proof. reflexivity. Qed.

Example utf8_decode_overlong : utf8_decode [xc0; x80] = None.
Proof. reflexivity. Qed.

Example pack_uint_little_endian : pack_uint 4 0x01020304 = Some [x04; x03; x02; x01].
Proof. reflexivity. Qed.

Example embed_loop_two_bits :
  embed_loop [255; 128; 7] 0 (str_of "01") = Return [254; 129; 7].
Proof. reflexivity. Qed.

Example full_message_with_link :
  full_message (str_of "hi") (str_of "x") = [104; 105; 10; 76; 73; 78; 75; 58; 120].
Proof. reflexivity. Qed.

Example png_path_forced :
  png_path (E := Reference.externals) "photo.JPG" = "photo.png"%string
  ∧ png_path (E := Reference.externals) "photo.PNG" = "photo.PNG"%string.
Proof. split; reflexivity. Qed.

Example encode_then_decode_empty_message :
  (decode (E := Reference.externals) "out.png"
     (encode (E := Reference.externals) "in.png" "out.png" [] None None ()
        Examples.rnd0 Examples.fs0).2).1 = Return (Some []).
Proof. by vm_compute. Qed.

Example decode_carrier_without_payload :
  (decode (E := Reference.externals) "in.png" Examples.fs0).1 = Return None.
Proof. by vm_compute. Qed.

(** ** Lists and options *)

Lemma mapM_cons {A B} (f : A → option B) (x : A) (l : list A) :
  mapM f (x :: l) = y ← f x; k ← mapM f l; Some (y :: k).
Proof. reflexivity. Qed.

(** ** Bytes *)

Lemma byte_val_range (b : byte) : 0 <= byte_val b < 256.
Proof.
  unfold byte_val. pose proof (Byte.to_N_bounded b). lia.
Qed.

Lemma byte_of_int_val (b : byte) : byte_of_int (byte_val b) = Some b.
Proof.
  unfold byte_of_int, byte_val. rewrite decide_True by lia.
  rewrite N2Z.id. apply Byte.of_to_N.
Qed.

Lemma byte_of_int_Some (z : Z) (b : byte) : byte_of_int z = Some b → byte_val b = z.
Proof.
  unfold byte_of_int, byte_val. case_decide; [|done].
  intros H1%Byte.to_of_N. rewrite H1. lia.
Qed.

Lemma byte_of_int_is_Some (z : Z) : 0 <= z < 256 → is_Some (byte_of_int z).
Proof.
  intros Hz. unfold byte_of_int. rewrite decide_True by lia.
  destruct (Byte.of_N (Z.to_N z)) eqn:Hb; [by eexists|].
  apply Byte.of_N_None_iff in Hb. lia.
Qed.

Lemma byte_val_to_byte (z : Z) : 0 <= z < 256 → byte_val (to_byte z) = z.
Proof.
  intros Hz. unfold to_byte. rewrite Z.mod_small by lia.
  destruct (byte_of_int_is_Some z Hz) as [b Hb]. rewrite Hb. simpl.
  by apply byte_of_int_Some.
Qed.

Lemma to_byte_val (b : byte) : to_byte (byte_val b) = b.
Proof.
  unfold to_byte. rewrite Z.mod_small by apply byte_val_range.
  by rewrite byte_of_int_val.
Qed.

Lemma byte_val_inj (a b : byte) : byte_val a = byte_val b → a = b.
Proof. intros H. rewrite <- (to_byte_val a), <- (to_byte_val b). by rewrite H. Qed.

(** ** The UTF-8 codec *)

Lemma utf8_encode_char_is_Some (c : Z) :
  scalar_value c → is_Some (utf8_encode_char c).
Proof.
  intros [Hr Hs]. unfold utf8_encode_char.
  repeat case_decide; try (exfalso; lia); by eexists.
Qed.

Lemma utf8_encode_char_scalar (c : Z) (chunk : bytes) :
  utf8_encode_char c = Some chunk → scalar_value c.
Proof.
  unfold utf8_encode_char, scalar_value. repeat case_decide; intros; simplify_eq; lia.
Qed.

Ltac byte_vals :=
  repeat match goal with
         | |- context [byte_val (to_byte ?z)] =>
             rewrite (byte_val_to_byte z)
               by (Z.div_mod_to_equations; lia)
         end.

Lemma utf8_decode_char (c : Z) (chunk rest : bytes) :
  utf8_encode_char c = Some chunk →
  utf8_decode (chunk ++ rest) = cons c <$> utf8_decode rest.
Proof.
  unfold utf8_encode_char. repeat case_decide; intros; simplify_eq.
  - cbn [app utf8_decode]. byte_vals. by rewrite decide_True by lia.
  - cbn [app utf8_decode]. byte_vals. cbv zeta.
    rewrite decide_False by (Z.div_mod_to_equations; lia).
    rewrite decide_True by (Z.div_mod_to_equations; lia).
    unfold is_cont. rewrite bool_decide_eq_true_2 by (Z.div_mod_to_equations; lia).
    do 2 f_equal. Z.div_mod_to_equations; lia.
  - cbn [app utf8_decode]. byte_vals. cbv zeta.
    rewrite decide_False by (Z.div_mod_to_equations; lia).
    rewrite decide_False by (Z.div_mod_to_equations; lia).
    rewrite decide_True by (Z.div_mod_to_equations; lia).
    unfold is_cont.
    assert ((0xE0 + c / 4096) mod 16 * 4096 + (0x80 + c / 64 mod 64) mod 64 * 64
            + (0x80 + c mod 64) mod 64 = c) as -> by (Z.div_mod_to_equations; lia).
    rewrite !bool_decide_eq_true_2 by (Z.div_mod_to_equations; lia).
    by rewrite bool_decide_eq_false_2 by lia.
  - cbn [app utf8_decode]. byte_vals. cbv zeta.
    rewrite decide_False by (Z.div_mod_to_equations; lia).
    rewrite decide_False by (Z.div_mod_to_equations; lia).
    rewrite decide_False by (Z.div_mod_to_equations; lia).
    rewrite decide_True by (Z.div_mod_to_equations; lia).
    unfold is_cont.
    assert ((0xF0 + c / 262144) mod 8 * 262144 + (0x80 + c / 4096 mod 64) mod 64 * 4096
            + (0x80 + c / 64 mod 64) mod 64 * 64 + (0x80 + c mod 64) mod 64 = c)
      as -> by (Z.div_mod_to_equations; lia).
    by rewrite !bool_decide_eq_true_2 by (Z.div_mod_to_equations; lia).
Qed.

(** Decoding undoes encoding. *)
Lemma utf8_decode_encode (s : str) (bs : bytes) :
  utf8_encode s = Some bs → utf8_decode bs = Some s.
Proof.
  unfold utf8_encode. revert bs. induction s as [|c s IH]; intros bs.
  - cbn. by intros [= <-].
  - rewrite mapM_cons.
    destruct (utf8_encode_char c) as [chunk|] eqn:Hc; [|done].
    destruct (mapM utf8_encode_char s) as [chunks|] eqn:Hs; cbn; [|done].
    intros [= <-]. rewrite (utf8_decode_char c chunk _ Hc).
    by rewrite (IH (concat chunks) eq_refl).
Qed.

Lemma utf8_encode_is_Some (s : str) :
  Forall scalar_value s ↔ is_Some (utf8_encode s).
Proof.
  unfold utf8_encode. induction s as [|c s IH].
  - split; [by eexists | constructor].
  - rewrite mapM_cons. split.
    + intros [Hc Hs]%Forall_cons.
      destruct (utf8_encode_char_is_Some c Hc) as [chunk ->].
      apply IH in Hs as [bs Hbs].
      destruct (mapM utf8_encode_char s); cbn in *; [|done]. by eexists.
    + intros [bs Hbs].
      destruct (utf8_encode_char c) as [chunk|] eqn:Hc; [|done].
      destruct (mapM utf8_encode_char s) as [chunks|] eqn:Hs; cbn; [|done].
      constructor; [by eapply utf8_encode_char_scalar|].
      apply IH. cbn. by eexists.
Qed.

Lemma utf8_encode_app (s t : str) (a b : bytes) :
  utf8_encode s = Some a → utf8_encode t = Some b →
  utf8_encode (s ++ t) = Some (a ++ b).
Proof.
  unfold utf8_encode. revert a. induction s as [|c s IH]; intros a.
  - cbn. intros [= <-]. done.
  - rewrite <- app_comm_cons, !mapM_cons.
    destruct (utf8_encode_char c) as [chunk|]; [|done].
    destruct (mapM utf8_encode_char s) as [chunks|] eqn:Hs; cbn; [|done].
    intros [= <-] Ht. specialize (IH _ eq_refl Ht).
    destruct (mapM utf8_encode_char (s ++ t)); [|done]. cbn in *.
    simplify_eq. by rewrite IH, app_assoc.
Qed.

(** ** Slices *)

Lemma slice_middle {A} (l1 l2 l3 : list A) (a b : nat) :
  a = length l1 → b = (length l1 + length l2)%nat →
  slice a b (l1 ++ l2 ++ l3) = l2.
Proof.
  intros -> ->. unfold slice. rewrite drop_app_length.
  by rewrite take_app_length' by lia.
Qed.

Lemma slice_length {A} (l : list A) (a b : nat) :
  (a ≤ b ≤ length l)%nat → length (slice a b l) = (b - a)%nat.
Proof. intros. unfold slice. rewrite length_take, length_drop. lia. Qed.

Lemma slice_fmap {A B} (f : A → B) (l : list A) (a b : nat) :
  slice a b (f <$> l) = f <$> slice a b l.
Proof. unfold slice. by rewrite fmap_take, fmap_drop. Qed.

Lemma lookup_slice {A} (l : list A) (a b i : nat) :
  (i < b - a)%nat → slice a b l !! i = l !! (a + i)%nat.
Proof. intros. unfold slice. by rewrite lookup_take_lt, lookup_drop. Qed.

(** ** [struct.pack] and [struct.unpack] *)

Lemma le_bytes_length (size : nat) (v : Z) : length (le_bytes size v) = size.
Proof. revert v. induction size; intros; cbn; [done | by rewrite IHsize]. Qed.

Lemma le_int_le_bytes (size : nat) (v : Z) :
  0 <= v < 2 ^ (8 * Z.of_nat size) → le_int (le_bytes size v) = v.
Proof.
  revert v. induction size as [|k IH]; intros v Hv.
  - cbn in *. lia.
  - cbn [le_bytes le_int].
    rewrite byte_val_to_byte by (Z.div_mod_to_equations; lia).
    assert (2 ^ (8 * Z.of_nat (S k)) = 256 * 2 ^ (8 * Z.of_nat k)) as Hp.
    { replace (8 * Z.of_nat (S k)) with (8 + 8 * Z.of_nat k) by lia.
      rewrite Z.pow_add_r by lia. done. }
    rewrite IH by (Z.div_mod_to_equations; lia).
    Z.div_mod_to_equations; lia.
Qed.

Lemma unpack_pack_uint (size : nat) (v : Z) (b : bytes) :
  pack_uint size v = Some b → unpack_uint size b = Some v.
Proof.
  unfold pack_uint, unpack_uint. case_decide; [|done]. intros [= <-].
  rewrite decide_True by apply le_bytes_length. by rewrite le_int_le_bytes.
Qed.

Lemma pack_s_exact (size : nat) (b : bytes) :
  length b = size → pack_s size b = b.
Proof. intros. unfold pack_s. by apply take_app_length'. Qed.

Lemma pack_s_length (size : nat) (b : bytes) : length (pack_s size b) = size.
Proof.
  unfold pack_s. rewrite length_take, length_app, length_replicate. lia.
Qed.

(** ** Bit strings *)

Lemma str_lsb_char (v : Z) : str_lsb v = [lsb_char v].
Proof. unfold str_lsb, lsb_char. by case_decide; [rewrite bool_decide_eq_true_2|rewrite bool_decide_eq_false_2]. Qed.

Lemma is_bit_char (b : bool) : is_bit (bit_char b).
Proof. destruct b; [by right | by left]. Qed.

Lemma land_1_cases (v : Z) : Z.land v 1 = 0 ∨ Z.land v 1 = 1.
Proof.
  pose proof (Z.land_ones v 1 ltac:(lia)) as H.
  change (Z.ones 1) with 1 in H. rewrite H, Z.pow_1_r.
  Z.div_mod_to_equations; lia.
Qed.

Lemma format_08b_byte (b : byte) : format_08b (byte_val b) = bits_msb_first (byte_val b).
Proof. by destruct b. Qed.

Lemma format_08b_length (b : byte) : length (format_08b (byte_val b)) = 8%nat.
Proof. by rewrite format_08b_byte. Qed.

Lemma int_base2_format_08b (b : byte) :
  int_base2 (format_08b (byte_val b)) = Some (byte_val b).
Proof. by destruct b. Qed.

Lemma bit_string_app (a b : bytes) : bit_string (a ++ b) = bit_string a ++ bit_string b.
Proof. unfold bit_string. by rewrite fmap_app, concat_app. Qed.

Lemma bit_string_length (data : bytes) : length (bit_string data) = (8 * length data)%nat.
Proof.
  unfold bit_string. induction data as [|b data IH]; [done|].
  cbn [fmap list_fmap concat]. rewrite length_app, format_08b_length.
  cbn [fmap] in IH. rewrite IH. cbn [length]. lia.
Qed.

Lemma bit_string_is_bit (data : bytes) : Forall is_bit (bit_string data).
Proof.
  unfold bit_string. induction data as [|b data IH]; [constructor|].
  cbn [fmap list_fmap concat]. apply Forall_app. split; [|done].
  rewrite format_08b_byte. unfold bits_msb_first.
  apply Forall_fmap, Forall_forall. intros k _. apply is_bit_char.
Qed.

Lemma range_step_8 (n : nat) :
  range_step n 8 =
  ((λ k, k * 8)%nat <$> seq 0 (n / 8)) ++ (if decide (n `mod` 8 = 0)%nat then [] else [(n / 8 * 8)%nat]).
Proof.
  unfold range_step.
  pose proof (Nat.div_mod_eq n 8) as Hn.
  pose proof (Nat.mod_upper_bound n 8 ltac:(lia)) as Hm.
  case_decide as Hr.
  - replace ((n + 8 - 1) / 8)%nat with (n / 8)%nat; [by rewrite app_nil_r|].
    apply Nat.div_unique with (r := 7%nat); lia.
  - replace ((n + 8 - 1) / 8)%nat with (S (n / 8))%nat.
    + by rewrite seq_S, fmap_app.
    + apply Nat.div_unique with (r := (n `mod` 8 - 1)%nat); lia.
Qed.

Lemma append_group_chunk (bits : str) (acc : bytes) (k : nat) :
  (k * 8 + 8 ≤ length bits)%nat →
  append_group bits (Some acc) (k * 8)%nat = b ← chunk_byte bits k; Some (acc ++ [b]).
Proof.
  intros Hk. unfold append_group, chunk_byte. cbn [mbind option_bind].
  rewrite decide_True by done. by destruct (int_base2 _).
Qed.

Lemma append_group_full (bits : str) (idxs : list nat) (out : option bytes) :
  Forall (λ k, k * 8 + 8 ≤ length bits)%nat idxs →
  foldl (append_group bits) out ((λ k, k * 8)%nat <$> idxs) =
  acc ← out; r ← mapM (chunk_byte bits) idxs; Some (acc ++ r).
Proof.
  revert out. induction idxs as [|k idxs IH]; intros out Hk.
  - destruct out; cbn; [by rewrite app_nil_r | done].
  - apply Forall_cons in Hk as [Hk Hidxs].
    rewrite fmap_cons. cbn [foldl]. rewrite IH by done.
    rewrite mapM_cons. destruct out as [acc|]; [|done].
    rewrite append_group_chunk by done.
    destruct (chunk_byte bits k) as [b|]; [|done]. cbn.
    destruct (mapM _ idxs); [|done]. cbn. by rewrite <- app_assoc.
Qed.

(** The loop turns every full group of eight characters into a byte, in
    order, and skips a shorter last group. *)
Lemma bytes_of_bit_string_chunks (bits : str) :
  bytes_of_bit_string bits = mapM (chunk_byte bits) (seq 0 (length bits / 8)).
Proof.
  unfold bytes_of_bit_string.
  rewrite range_step_8, foldl_app, append_group_full.
  - pose proof (Nat.div_mod_eq (length bits) 8).
    pose proof (Nat.mod_upper_bound (length bits) 8 ltac:(lia)).
    destruct (mapM _ _) as [r|]; cbn [mbind option_bind app].
    + case_decide; [done|]. cbn [foldl]. unfold append_group. cbn [mbind option_bind].
      by rewrite decide_False by lia.
    + by case_decide.
  - apply Forall_forall. intros k Hk%elem_of_seq.
    pose proof (Nat.div_mod_eq (length bits) 8). lia.
Qed.

Lemma mapM_seq_shift {B} (f : nat → option B) (n : nat) :
  mapM f (seq 1 n) = mapM (f ∘ S) (seq 0 n).
Proof.
  rewrite <- fmap_S_seq. generalize (seq 0 n). intros l.
  induction l as [|x l IH]; [done|].
  rewrite fmap_cons, !mapM_cons, IH. done.
Qed.

Lemma mapM_ext_in {A B} (f g : A → option B) (l : list A) :
  (∀ x, x ∈ l → f x = g x) → mapM f l = mapM g l.
Proof.
  induction l as [|x l IH]; intros Hfg; [done|].
  rewrite !mapM_cons, Hfg, IH; [done| |left].
  intros y Hy. apply Hfg. by right.
Qed.

(** One more group of eight characters in front. *)
Lemma bytes_of_bit_string_cons (chunk rest : str) :
  length chunk = 8%nat →
  bytes_of_bit_string (chunk ++ rest) =
  b ← (v ← int_base2 chunk; byte_of_int v);
  bs ← bytes_of_bit_string rest;
  Some (b :: bs).
Proof.
  intros Hc. rewrite !bytes_of_bit_string_chunks.
  rewrite length_app, Hc.
  replace ((8 + length rest) / 8)%nat with (S (length rest / 8)).
  2:{ pose proof (Nat.div_mod_eq (length rest) 8).
      pose proof (Nat.mod_upper_bound (length rest) 8 ltac:(lia)).
      apply Nat.div_unique with (r := (length rest `mod` 8)%nat); lia. }
  cbn [seq]. rewrite mapM_cons, mapM_seq_shift.
  assert (chunk_byte (chunk ++ rest) 0 = v ← int_base2 chunk; byte_of_int v) as ->.
  { unfold chunk_byte, slice. cbn [Nat.mul Nat.add]. rewrite drop_0.
    by rewrite take_app_length' by lia. }
  assert (mapM (chunk_byte (chunk ++ rest) ∘ S) (seq 0 (length rest / 8))
          = mapM (chunk_byte rest) (seq 0 (length rest / 8))) as ->; [|done].
  apply mapM_ext_in. intros k _. unfold chunk_byte, compose, slice.
  replace (S k * 8)%nat with (length chunk + k * 8)%nat by lia.
  rewrite <- drop_drop, drop_app_length. do 3 f_equal. lia.
Qed.

(** Reading back a bit string gives the bytes it was made of. *)
Lemma bytes_of_bit_string_bit_string (data : bytes) :
  bytes_of_bit_string (bit_string data) = Some data.
Proof.
  induction data as [|b data IH]; [done|].
  change (bit_string (b :: data)) with (format_08b (byte_val b) ++ bit_string data).
  rewrite bytes_of_bit_string_cons by apply format_08b_length.
  rewrite int_base2_format_08b, IH. cbn [mbind option_bind].
  by rewrite byte_of_int_val.
Qed.

(** ** Reading low bits *)

Lemma slice_cons {A} (l : list A) (a n : nat) (x : A) :
  l !! a = Some x → slice a (a + S n) l = x :: slice (S a) (S a + n) l.
Proof.
  intros Hx. unfold slice. rewrite (drop_S l x a Hx).
  replace (a + S n - a)%nat with (S n) by lia.
  replace (S a + n - S a)%nat with n by lia. done.
Qed.

Lemma slice_empty {A} (l : list A) (a : nat) : slice a (a + 0) l = [].
Proof. unfold slice. by replace (a + 0 - a)%nat with 0%nat by lia. Qed.

Lemma slice_slice {A} (l : list A) (a b c d : nat) :
  (a + d ≤ b)%nat → slice c d (slice a b l) = slice (a + c) (a + d) l.
Proof.
  intros. unfold slice. rewrite skipn_firstn_comm, take_take, drop_drop.
  f_equal. lia.
Qed.

Lemma lsb_string_Some (flat_img : list Z) (start count : nat) :
  (start + count ≤ length flat_img)%nat →
  lsb_string flat_img start count =
  Some (lsb_char <$> slice start (start + count) flat_img).
Proof.
  unfold lsb_string. revert start. induction count as [|n IH]; intros start Hle.
  - by rewrite slice_empty.
  - cbn [seq]. rewrite mapM_cons.
    destruct (lookup_lt_is_Some_2 flat_img start ltac:(lia)) as [v Hv].
    rewrite (slice_cons _ _ _ _ Hv), Hv. cbn [fmap option_fmap option_map mbind option_bind].
    specialize (IH (S start) ltac:(lia)).
    destruct (mapM _ (seq (S start) n)) as [chunks|]; [|done].
    cbn [mbind option_bind] in *. simplify_eq.
    cbn [concat]. by rewrite str_lsb_char, IH.
Qed.

Lemma lsb_string_None (flat_img : list Z) (start count : nat) :
  (0 < count)%nat → (length flat_img < start + count)%nat →
  lsb_string flat_img start count = None.
Proof.
  unfold lsb_string. revert start.
  induction count as [|n IH]; intros start Hpos Hlt; [lia|].
  cbn [seq]. rewrite mapM_cons.
  destruct (flat_img !! start) as [v|] eqn:Hv; [|done].
  apply lookup_lt_Some in Hv. cbn [fmap option_fmap option_map mbind option_bind].
  specialize (IH (S start) ltac:(lia) ltac:(lia)).
  by destruct (mapM _ (seq (S start) n)).
Qed.

Lemma digit2_lsb_char (v : Z) : digit2 (lsb_char v) = Some (Z.land v 1).
Proof.
  unfold lsb_char. destruct (land_1_cases v) as [H|H]; rewrite H; by vm_compute.
Qed.

Lemma foldl_lsb_chars (vs : list Z) (acc : Z) :
  foldl (λ acc c, a ← acc; d ← digit2 c; Some (2 * a + d)) (Some acc) (lsb_char <$> vs)
  = Some (foldl (λ acc v, 2 * acc + Z.land v 1) acc vs).
Proof.
  revert acc. induction vs as [|v vs IH]; intros acc; [done|].
  rewrite fmap_cons. cbn [foldl mbind option_bind].
  rewrite digit2_lsb_char. cbn [mbind option_bind]. apply IH.
Qed.

Lemma int_base2_lsb_chars (vs : list Z) :
  vs ≠ [] → int_base2 (lsb_char <$> vs) = Some (of_lsbs vs).
Proof.
  destruct vs as [|v vs]; [done|]. intros _.
  exact (foldl_lsb_chars (v :: vs) 0).
Qed.

Lemma of_lsbs_range (vs : list Z) : 0 <= of_lsbs vs < 2 ^ Z.of_nat (length vs).
Proof.
  unfold of_lsbs.
  assert (∀ acc, 0 <= acc →
            0 <= foldl (λ acc v, 2 * acc + Z.land v 1) acc vs
            < (acc + 1) * 2 ^ Z.of_nat (length vs)) as H;
    [|specialize (H 0 ltac:(lia)); lia].
  induction vs as [|v vs IH]; intros acc Hacc.
  - cbn. lia.
  - cbn [foldl length]. rewrite Nat2Z.inj_succ, Z.pow_succ_r by lia.
    pose proof (land_1_cases v).
    specialize (IH (2 * acc + Z.land v 1) ltac:(lia)).
    assert (0 < 2 ^ Z.of_nat (length vs)) by (apply Z.pow_pos_nonneg; lia).
    nia.
Qed.

Lemma byte_of_int_to_byte (z : Z) : 0 <= z < 256 → byte_of_int z = Some (to_byte z).
Proof.
  intros Hz. unfold to_byte. rewrite Z.mod_small by lia.
  by destruct (byte_of_int_is_Some z Hz) as [b ->].
Qed.

Lemma mapM_total {A B} (f : A → option B) (g : A → B) (l : list A) :
  (∀ x, x ∈ l → f x = Some (g x)) → mapM f l = Some (g <$> l).
Proof.
  induction l as [|x l IH]; intros Hfg; [done|].
  rewrite mapM_cons, Hfg, IH; [done| |left].
  intros y Hy. apply Hfg. by right.
Qed.

Lemma read_bytes_ok (flat_img : list Z) (start n : nat) :
  (start + 8 * n ≤ length flat_img)%nat →
  read_bytes flat_img start (8 * n) = Return (byte_at flat_img start <$> seq 0 n).
Proof.
  intros Hle. unfold read_bytes. rewrite lsb_string_Some by done.
  cbn [or_raise from_option mbind result_bind].
  rewrite bytes_of_bit_string_chunks, length_fmap, slice_length by lia.
  replace ((start + 8 * n - start) / 8)%nat with n
    by (apply Nat.div_unique with (r := 0%nat); lia).
  rewrite (mapM_total _ (byte_at flat_img start)); [done|].
  intros k Hk%elem_of_seq. unfold chunk_byte, byte_at.
  rewrite slice_fmap, slice_slice by lia.
  rewrite int_base2_lsb_chars.
  - cbn [mbind option_bind].
    replace (start + (k * 8 + 8))%nat with (start + k * 8 + 8)%nat by lia.
    apply byte_of_int_to_byte.
    pose proof (of_lsbs_range (slice (start + k * 8) (start + k * 8 + 8) flat_img)) as Hr.
    rewrite slice_length in Hr by lia.
    replace (Z.of_nat (start + k * 8 + 8 - (start + k * 8))) with 8 in Hr by lia.
    change (2 ^ 8) with 256 in Hr. done.
  - intros Hnil%(f_equal length). rewrite slice_length in Hnil by lia.
    cbn in Hnil. lia.
Qed.

Lemma read_bytes_short (flat_img : list Z) (start count : nat) :
  (0 < count)%nat → (length flat_img < start + count)%nat →
  read_bytes flat_img start count = Raise IndexError.
Proof.
  intros. unfold read_bytes. by rewrite lsb_string_None.
Qed.

(** ** The embedding loop *)

Lemma int_of_char_bit (c : Z) : is_bit c → int_of_char c = Some (c - ord "0").
Proof. by intros [-> | ->]. Qed.

Lemma land_embed_value (v c : Z) : is_bit c → Z.land (embed_value v c) 1 = c - ord "0".
Proof.
  intros Hc. unfold embed_value.
  rewrite Z.land_lor_distr_l, <- Z.land_assoc.
  change (Z.land 0xFE 1) with 0. rewrite Z.land_0_r, Z.lor_0_l.
  by destruct Hc as [-> | ->].
Qed.

Lemma lsb_char_embed_value (v c : Z) : is_bit c → lsb_char (embed_value v c) = c.
Proof.
  intros Hc. unfold lsb_char. rewrite land_embed_value by done.
  by destruct Hc as [-> | ->].
Qed.

(** The loop succeeds, keeps the length, rewrites the entries [i] to
    [i + len(bits) - 1] that exist and leaves every other entry alone. *)
Lemma embed_loop_spec (bits : str) (flat_img : list Z) (i : nat) :
  Forall is_bit bits →
  ∃ flat', embed_loop flat_img i bits = Return flat'
    ∧ length flat' = length flat_img
    ∧ ∀ j, flat' !! j =
           if decide (i ≤ j < i + length bits)%nat
           then v ← flat_img !! j; c ← bits !! (j - i)%nat; Some (embed_value v c)
           else flat_img !! j.
Proof.
  revert flat_img i. induction bits as [|bit rest IH]; intros flat_img i Hbits.
  - exists flat_img. split_and!; [done..|].
    intros j. rewrite decide_False; [done | cbn; lia].
  - apply Forall_cons in Hbits as [Hbit Hrest]. cbn [embed_loop].
    case_decide as Hi.
    + destruct (lookup_lt_is_Some_2 flat_img i Hi) as [v Hv]. rewrite Hv.
      rewrite int_of_char_bit by done. cbn [or_raise from_option mbind result_bind].
      destruct (IH (<[i:=Z.lor (Z.land v 254) (bit - ord "0")]> flat_img) (S i) Hrest)
        as (flat' & Hrun & Hlen & Hget).
      exists flat'. split_and!; [done | by rewrite Hlen, length_insert |].
      intros j. rewrite Hget. cbn [length].
      destruct (decide (j = i)) as [-> | Hne].
      * rewrite decide_False by lia. rewrite decide_True by lia.
        rewrite list_lookup_insert_eq by done. rewrite Hv, Nat.sub_diag. done.
      * rewrite list_lookup_insert_ne by done.
        repeat case_decide; try lia; [|done].
        by replace (j - i)%nat with (S (j - S i)) by lia.
    + destruct (IH flat_img (S i) Hrest) as (flat' & Hrun & Hlen & Hget).
      exists flat'. split_and!; [done..|].
      intros j. rewrite Hget. cbn [length].
      destruct (decide (j = i)) as [-> | Hne].
      * rewrite decide_False by lia. rewrite decide_True by lia.
        by rewrite (lookup_ge_None_2 flat_img i) by lia.
      * repeat case_decide; try lia; [|done].
        by replace (j - i)%nat with (S (j - S i)) by lia.
Qed.

(** The low bits of the first [len(bits)] entries spell [bits]. *)
Lemma embed_loop_lsb (bits : str) (flat_img flat' : list Z) (a n : nat) :
  Forall is_bit bits →
  embed_loop flat_img 0 bits = Return flat' →
  (length bits ≤ length flat_img)%nat →
  (a + n ≤ length bits)%nat →
  lsb_char <$> slice a (a + n) flat' = slice a (a + n) bits.
Proof.
  intros Hbits Hrun Hfit Han.
  destruct (embed_loop_spec bits flat_img 0 Hbits) as (flat'' & Hrun' & Hlen & Hget).
  rewrite Hrun in Hrun'. injection Hrun' as <-.
  apply (list_eq_same_length _ _ n).
  - rewrite slice_length; lia.
  - rewrite length_fmap, slice_length; lia.
  - intros k x y Hk. rewrite list_lookup_fmap, !lookup_slice by lia.
    rewrite Hget, decide_True by lia. rewrite Nat.sub_0_r.
    destruct (flat_img !! (a + k)%nat) as [v|]; [|done].
    destruct (bits !! (a + k)%nat) as [c|] eqn:Hc; [|done].
    cbn. intros [= <-] [= <-]. apply lsb_char_embed_value.
    by eapply Forall_lookup_1.
Qed.

(** ** Flattening and regrouping pixels *)

Lemma flatten_concat (pixels : list pixel) : flatten pixels = concat (bands <$> pixels).
Proof.
  unfold flatten.
  assert (∀ acc, foldl (λ flat_img '(r, g, b), flat_img ++ [r; g; b]) acc pixels
                 = acc ++ concat (bands <$> pixels)) as H; [|apply (H [])].
  induction pixels as [|[[r g] b] pixels IH]; intros acc.
  - cbn. by rewrite app_nil_r.
  - cbn [foldl fmap list_fmap concat]. rewrite IH. by rewrite <- app_assoc.
Qed.

Lemma flatten_cons (r g b : Z) (pixels : list pixel) :
  flatten ((r, g, b) :: pixels) = r :: g :: b :: flatten pixels.
Proof. by rewrite !flatten_concat. Qed.

Lemma flatten_length (pixels : list pixel) :
  length (flatten pixels) = (3 * length pixels)%nat.
Proof.
  induction pixels as [|[[r g] b] pixels IH]; [done|].
  rewrite flatten_cons. cbn [length]. lia.
Qed.

Lemma flatten_regroup (k : nat) (flat_img : list Z) :
  length flat_img = (3 * k)%nat → flatten (regroup flat_img) = flat_img.
Proof.
  revert flat_img. induction k as [|k IH]; intros flat_img Hlen.
  - by destruct flat_img.
  - destruct flat_img as [|r [|g [|b rest]]]; cbn in Hlen; try lia.
    cbn [regroup]. rewrite flatten_cons, IH; [done | lia].
Qed.

Lemma flatten_bands_ok (pixels : list pixel) :
  Forall pixel_ok pixels → Forall (λ v, 0 <= v < 256) (flatten pixels).
Proof.
  induction 1 as [|[[r g] b] pixels (Hr & Hg & Hb) _ IH]; [constructor|].
  rewrite flatten_cons. by repeat (apply Forall_cons; split; [done|]).
Qed.

(** ** The header *)

Lemma utf8_encode_SIGNATURE : utf8_encode SIGNATURE = Some SIGNATURE_BYTES.
Proof. reflexivity. Qed.

Lemma utf8_decode_SIGNATURE_BYTES : utf8_decode SIGNATURE_BYTES = Some SIGNATURE.
Proof. reflexivity. Qed.

Lemma struct_pack_header_layout (version : Z) (key salt : bytes) (n : Z) :
  length key = 32%nat → length salt = 16%nat →
  0 <= version < 2 ^ 32 → 0 <= n < 2 ^ 64 →
  struct_pack_header SIGNATURE_BYTES version key salt n DELIMITER
  = Some (header_layout version key salt n).
Proof.
  intros Hk Hs Hv Hn. unfold struct_pack_header, pack_uint.
  change (2 ^ (8 * Z.of_nat 4)) with (2 ^ 32).
  change (2 ^ (8 * Z.of_nat 8)) with (2 ^ 64).
  rewrite !decide_True by done. cbn [mbind option_bind].
  by rewrite !pack_s_exact.
Qed.

Lemma header_layout_length (version : Z) (key salt : bytes) (n : Z) :
  length key = 32%nat → length salt = 16%nat →
  length (header_layout version key salt n) = 74%nat.
Proof.
  intros Hk Hs. unfold header_layout.
  rewrite !length_app, !le_bytes_length, Hk, Hs. done.
Qed.

Lemma header_layout_fields (version : Z) (key salt : bytes) (n : Z) :
  length key = 32%nat → length salt = 16%nat →
  let h := header_layout version key salt n in
  take 6 h = SIGNATURE_BYTES
  ∧ slice 6 10 h = le_bytes 4 version
  ∧ slice 10 42 h = key
  ∧ slice 42 58 h = salt
  ∧ slice 58 66 h = le_bytes 8 n
  ∧ slice 66 74 h = DELIMITER.
Proof.
  intros Hk Hs h. subst h. unfold header_layout.
  pose proof (le_bytes_length 4 version) as H4.
  pose proof (le_bytes_length 8 n) as H8.
  split_and!.
  - by apply take_app_length'.
  - by apply slice_middle.
  - rewrite (app_assoc SIGNATURE_BYTES).
    apply slice_middle; rewrite length_app, H4; [done | by rewrite Hk].
  - rewrite (app_assoc (le_bytes 4 version)), (app_assoc SIGNATURE_BYTES).
    apply slice_middle; rewrite !length_app, H4, Hk; [done | by rewrite Hs].
  - rewrite (app_assoc key), (app_assoc (le_bytes 4 version)), (app_assoc SIGNATURE_BYTES).
    apply slice_middle; rewrite !length_app, H4, Hk, Hs; [done | by rewrite H8].
  - rewrite (app_assoc salt), (app_assoc key), (app_assoc (le_bytes 4 version)),
      (app_assoc SIGNATURE_BYTES).
    rewrite <- (app_nil_r DELIMITER) at 1.
    apply slice_middle; rewrite !length_app, H4, Hk, Hs, H8; done.
Qed.

(** ** The payload and its way through [encode] and [decode] *)

Section Properties.
Context `{E : Externals}.

Lemma data_to_hide_inv (message link : str) (rnd : randomness) (D : bytes) :
  randomness_ok rnd →
  data_to_hide message link rnd = Return D →
  ∃ ct, encrypted_data message link rnd = Return ct
        ∧ 0 <= len ct < 2 ^ 64
        ∧ D = header_layout VERSION (random_key rnd) (salt rnd) (len ct) ++ ct.
Proof.
  intros [Hk Hs]. unfold data_to_hide.
  destruct (encrypted_data message link rnd) as [ct|e]; [|done].
  cbn [mbind result_bind]. unfold header. rewrite utf8_encode_SIGNATURE.
  cbn [or_raise from_option mbind result_bind].
  destruct (decide (0 <= len ct < 2 ^ 64)) as [Hn|Hn].
  - rewrite struct_pack_header_layout by done.
    cbn [or_raise from_option mbind result_bind]. intros [= <-]. by exists ct.
  - unfold struct_pack_header, pack_uint.
    change (2 ^ (8 * Z.of_nat 8)) with (2 ^ 64).
    rewrite (decide_False (P := 0 <= len ct < 2 ^ 64)) by done.
    by case_decide.
Qed.

Lemma data_to_hide_intro (message link : str) (rnd : randomness) (ct : bytes) :
  randomness_ok rnd →
  encrypted_data message link rnd = Return ct →
  len ct < 2 ^ 64 →
  data_to_hide message link rnd
  = Return (header_layout VERSION (random_key rnd) (salt rnd) (len ct) ++ ct).
Proof.
  intros [Hk Hs] Hct Hn. unfold data_to_hide. rewrite Hct.
  cbn [mbind result_bind]. unfold header. rewrite utf8_encode_SIGNATURE.
  cbn [or_raise from_option mbind result_bind].
  rewrite struct_pack_header_layout; [done..| |unfold len in *; lia].
  by vm_compute.
Qed.

Lemma encrypted_data_intro (message link : str) (rnd : randomness) (mb : bytes) :
  utf8_encode (full_message message link) = Some mb →
  encrypted_data message link rnd
  = Return (fernet_encrypt (urlsafe_b64encode (random_key rnd)) (fernet_entropy rnd)
                           (zlib_compress mb)).
Proof. intros H. unfold encrypted_data, message_bytes. by rewrite H. Qed.

Lemma encrypted_data_inv (message link : str) (rnd : randomness) (ct : bytes) :
  encrypted_data message link rnd = Return ct →
  ∃ mb, utf8_encode (full_message message link) = Some mb
        ∧ ct = fernet_encrypt (urlsafe_b64encode (random_key rnd)) (fernet_entropy rnd)
                              (zlib_compress mb).
Proof.
  unfold encrypted_data, message_bytes.
  destruct (utf8_encode _) as [mb|]; [|done].
  cbn. intros [= <-]. by exists mb.
Qed.

(** Reading back a part of what the loop embedded. *)
Lemma read_bytes_embedded (flat_img flat' : list Z) (pre mid post : bytes) :
  embed_loop flat_img 0 (bit_string (pre ++ mid ++ post)) = Return flat' →
  (8 * length (pre ++ mid ++ post) ≤ length flat_img)%nat →
  read_bytes flat' (8 * length pre) (8 * length mid) = Return mid.
Proof.
  intros Hrun Hfit.
  destruct (embed_loop_spec (bit_string (pre ++ mid ++ post)) flat_img 0
              (bit_string_is_bit _)) as (flat'' & Hrun' & Hlen & _).
  rewrite Hrun in Hrun'. injection Hrun' as <-.
  rewrite !length_app in Hfit.
  unfold read_bytes. rewrite lsb_string_Some by lia.
  rewrite (embed_loop_lsb _ _ _ _ _ (bit_string_is_bit _) Hrun).
  - rewrite !bit_string_app.
    rewrite slice_middle by (rewrite !bit_string_length; lia).
    cbn [or_raise from_option mbind result_bind].
    by rewrite bytes_of_bit_string_bit_string.
  - rewrite bit_string_length, !length_app. lia.
  - rewrite bit_string_length, !length_app. lia.
Qed.

Lemma unframe_encrypted `{!ExternalsLaws E}
    (message link : str) (rnd : randomness) (ct : bytes) :
  randomness_ok rnd →
  encrypted_data message link rnd = Return ct →
  unframe (random_key rnd) ct = Return (full_message message link).
Proof.
  intros [Hk Hs] (mb & Hmb & ->)%encrypted_data_inv. unfold unframe.
  rewrite fernet_round_trip by done. cbn [or_raise from_option mbind result_bind].
  rewrite zlib_round_trip. cbn [or_raise from_option mbind result_bind].
  by rewrite (utf8_decode_encode _ _ Hmb).
Qed.

(** What [decode] makes of a raster [encode] has written: the message, or
    nothing when the ciphertext is longer than the ceiling of line 328. *)
Lemma decode_flat_embedded `{!ExternalsLaws E}
    (flat_img flat' : list Z) (message link : str) (rnd : randomness) (D ct : bytes) :
  randomness_ok rnd →
  data_to_hide message link rnd = Return D →
  encrypted_data message link rnd = Return ct →
  embed_loop flat_img 0 (bit_string D) = Return flat' →
  8 * len D <= len flat_img →
  decode_flat flat'
  = Return (if decide (len ct > 10000000) then None
            else Some (full_message message link)).
Proof.
  intros Hrnd HD Hct Hrun Hfit.
  destruct (data_to_hide_inv _ _ _ _ Hrnd HD) as (ct' & Hct' & Hn & ->).
  rewrite Hct in Hct'. injection Hct' as <-.
  destruct Hrnd as [Hk Hs].
  set (h := header_layout VERSION (random_key rnd) (salt rnd) (len ct)) in *.
  assert (length h = 74%nat) as Hh by by apply header_layout_length.
  destruct (embed_loop_spec (bit_string (h ++ ct)) flat_img 0
              (bit_string_is_bit _)) as (flat'' & Hrun' & Hlen & _).
  rewrite Hrun in Hrun'. injection Hrun' as <-.
  unfold len in Hfit. rewrite length_app, Hh in Hfit.
  destruct (header_layout_fields VERSION (random_key rnd) (salt rnd) (len ct) Hk Hs)
    as (Hsig & Hver & Hkey & Hsalt & Hlength & _). fold h in Hsig, Hver, Hkey, Hsalt, Hlength.
  unfold decode_flat.
  assert (read_bytes flat' 0 (HEADER_SIZE * 8) = Return h) as ->.
  { pose proof (read_bytes_embedded flat_img flat' [] h ct) as Hr.
    cbn [app length Nat.mul] in Hr. rewrite Hh in Hr. apply Hr; [done|].
    rewrite length_app, Hh. lia. }
  cbn [mbind result_bind].
  rewrite Hsig, utf8_decode_SIGNATURE_BYTES.
  cbn [or_raise from_option mbind result_bind].
  rewrite decide_False by (intros Hne; by apply Hne).
  rewrite Hver, Hlength.
  rewrite (unpack_pack_uint 4 VERSION (le_bytes 4 VERSION)) by done.
  rewrite (unpack_pack_uint 8 (len ct) (le_bytes 8 (len ct))).
  2:{ unfold pack_uint. change (2 ^ (8 * Z.of_nat 8)) with (2 ^ 64).
      by rewrite decide_True. }
  cbn [or_raise from_option mbind result_bind].
  destruct (decide (len ct > 10000000)) as [Hbig|Hsmall].
  - by rewrite decide_True by (by right).
  - rewrite decide_False by (unfold len, HEADER_SIZE in *; lia).
    assert (read_bytes flat' (HEADER_SIZE * 8) (Z.to_nat (len ct * 8)) = Return ct) as ->.
    { pose proof (read_bytes_embedded flat_img flat' h ct []) as Hr.
      rewrite app_nil_r, Hh in Hr.
      replace (Z.to_nat (len ct * 8)) with (8 * length ct)%nat by (unfold len; lia).
      apply Hr; [done|]. rewrite length_app, Hh. lia. }
    cbn [mbind result_bind]. rewrite Hkey.
    rewrite (unframe_encrypted message link rnd ct); [done| by split |done].
Qed.

End Properties.

(** ** Running [encode] and [decode] on a file system *)

Section Runs.
Context `{E : Externals}.

Lemma binary_data_Return (message link : str) (rnd : randomness) (D : bytes) :
  data_to_hide message link rnd = Return D →
  binary_data message link rnd = Return (bit_string D).
Proof. intros H. unfold binary_data. by rewrite H. Qed.

Lemma len_bit_string (D : bytes) : len (bit_string D) = 8 * len D.
Proof. unfold len. rewrite bit_string_length. lia. Qed.

(** The outcome of [encode] on an existing image whose payload could be
    framed: a [ValueError] and an untouched file system, or [True] and the
    output file. *)
Lemma encode_run (fs : filesystem) (input_path output_path : string)
    (message : str) (link : option str) (watermark_text : option string)
    (style : watermark_style) (rnd : randomness) (img : image) (D : bytes) :
  fs !! input_path = Some (ImageFile img) →
  data_to_hide message (default [] link) rnd = Return D →
  ∃ flat',
    embed_loop (flatten (getdata (carrier img watermark_text style))) 0 (bit_string D)
    = Return flat'
    ∧ encode input_path output_path message link watermark_text style rnd fs
      = if decide (8 * len D > width img * height img * 3)
        then (Raise ValueError, fs)
        else (Return true,
              <[png_path output_path :=
                  ImageFile (Image (width img) (height img) (regroup flat'))]> fs).
Proof.
  intros Hin HD.
  destruct (embed_loop_spec (bit_string D)
              (flatten (getdata (carrier img watermark_text style))) 0
              (bit_string_is_bit D)) as (flat' & Hrun & _).
  exists flat'. split; [done|].
  unfold encode, encode_with, mbind, M_bind, os_path_exists, Image_open, lift, raise,
    Image_save.
  rewrite Hin. rewrite bool_decide_eq_true_2 by by eexists.
  cbn [negb]. rewrite Hin.
  rewrite (binary_data_Return _ _ _ _ HD), len_bit_string.
  case_decide; [done|]. rewrite Hrun.
  rewrite bool_decide_eq_true_2; [done|].
  rewrite lookup_insert_eq. by eexists.
Qed.

(** [encode] writes nothing before it raises. *)
Lemma encode_raise_untouched (fs : filesystem) (input_path output_path : string)
    (message : str) (link : option str) (watermark_text : option string)
    (style : watermark_style) (rnd : randomness) (e : exn) :
  (encode input_path output_path message link watermark_text style rnd fs).1 = Raise e →
  (encode input_path output_path message link watermark_text style rnd fs).2 = fs.
Proof.
  unfold encode, encode_with, mbind, M_bind, os_path_exists, Image_open, lift, raise,
    Image_save.
  destruct (fs !! input_path) as [[img|]|] eqn:Hin.
  - rewrite bool_decide_eq_true_2 by by eexists. cbn [negb]. rewrite Hin.
    destruct (binary_data _ _ _) as [bits|e']; [|done].
    case_decide; [done|].
    destruct (embed_loop _ _ _) as [flat'|e']; [|done].
    rewrite bool_decide_eq_true_2; [done|].
    rewrite lookup_insert_eq. by eexists.
  - rewrite bool_decide_eq_true_2 by by eexists. cbn [negb]. by rewrite Hin.
  - rewrite bool_decide_eq_false_2; [done|]. by intros [? ?].
Qed.

Lemma decode_run (fs : filesystem) (image_path : string) (img : image) :
  fs !! image_path = Some (ImageFile img) →
  decode image_path fs = (decode_flat (flatten (getdata img)), fs).
Proof.
  intros Hin. unfold decode, mbind, M_bind, os_path_exists, Image_open, lift, raise.
  rewrite Hin. rewrite bool_decide_eq_true_2 by by eexists.
  cbn [negb]. by rewrite Hin.
Qed.

Lemma decode_missing (fs : filesystem) (image_path : string) :
  fs !! image_path = None → decode image_path fs = (Raise FileNotFoundError, fs).
Proof.
  intros Hin. unfold decode, mbind, M_bind, os_path_exists, raise.
  rewrite Hin. rewrite bool_decide_eq_false_2; [done|]. by intros [? ?].
Qed.

Lemma decode_not_image (fs : filesystem) (image_path : string) :
  fs !! image_path = Some OtherFile →
  decode image_path fs = (Raise UnidentifiedImageError, fs).
Proof.
  intros Hin. unfold decode, mbind, M_bind, os_path_exists, Image_open, raise.
  rewrite Hin. rewrite bool_decide_eq_true_2 by by eexists.
  cbn [negb]. by rewrite Hin.
Qed.

(** [decode] reads the file system and leaves it as it is. *)
Lemma decode_read_only (fs : filesystem) (image_path : string) :
  (decode image_path fs).2 = fs.
Proof.
  destruct (fs !! image_path) as [[img|]|] eqn:Hin.
  - by rewrite (decode_run _ _ _ Hin).
  - by rewrite (decode_not_image _ _ Hin).
  - by rewrite (decode_missing _ _ Hin).
Qed.

(** [decode] on the file [encode] wrote. *)
Lemma decode_after_encode `{!ExternalsLaws E}
    (fs : filesystem) (input_path output_path : string)
    (message : str) (link : option str) (watermark_text : option string)
    (style : watermark_style) (rnd : randomness) (img : image) (D : bytes) :
  fs !! input_path = Some (ImageFile img) →
  image_ok img →
  randomness_ok rnd →
  data_to_hide message (default [] link) rnd = Return D →
  8 * len D <= width img * height img * 3 →
  (encode input_path output_path message link watermark_text style rnd fs).1 = Return true
  ∧ (decode (png_path output_path)
       (encode input_path output_path message link watermark_text style rnd fs).2).1
    = Return (if decide (len D - 74 > 10000000) then None
              else Some (full_message message (default [] link))).
Proof.
  intros Hin Himg Hrnd HD Hfit.
  destruct (encode_run fs input_path output_path message link watermark_text style
              rnd img D Hin HD) as (flat' & Hrun & ->).
  rewrite decide_False by lia. split; [done|]. cbn [snd].
  assert (image_ok (carrier img watermark_text style)) as [Hsize _].
  { unfold carrier. destruct (truthy _); [by apply add_watermark_ok | done]. }
  assert (width (carrier img watermark_text style) = width img
          ∧ height (carrier img watermark_text style) = height img) as [Hw Hh].
  { unfold carrier. destruct (truthy _); [apply add_watermark_size | done]. }
  destruct (embed_loop_spec (bit_string D)
              (flatten (getdata (carrier img watermark_text style))) 0
              (bit_string_is_bit D)) as (flat'' & Hrun' & Hlen & _).
  rewrite Hrun in Hrun'. injection Hrun' as <-.
  rewrite flatten_length in Hlen.
  rewrite (decode_run _ _ (Image (width img) (height img) (regroup flat')))
    by apply lookup_insert_eq.
  cbn [fst getdata]. rewrite (flatten_regroup _ _ Hlen).
  destruct (data_to_hide_inv _ _ _ _ Hrnd HD) as (ct & Hct & Hn & HDeq).
  rewrite (decode_flat_embedded _ flat' message (default [] link) rnd D ct
             Hrnd HD Hct Hrun).
  - assert (len D - 74 = len ct) as ->; [|done].
    rewrite HDeq. unfold len. rewrite length_app, header_layout_length by apply Hrnd. lia.
  - unfold len in *. rewrite flatten_length. lia.
Qed.

End Runs.

(** ** The reference instance satisfies the contracts *)

Global Instance reference_laws : ExternalsLaws Reference.externals.
Proof.
  split.
  - done.
  - intros key e d _. cbn. unfold Reference.decrypt, Reference.encrypt.
    rewrite take_app_length, decide_True by done. by rewrite drop_app_length.
  - done.
  - done.
Qed.

(** ** The header codec *)

Lemma le_bytes_lookup (size : nat) (v : Z) (k : nat) :
  (k < size)%nat →
  le_bytes size v !! k = Some (to_byte (v / 256 ^ Z.of_nat k mod 256)).
Proof.
  revert v k. induction size as [|s IH]; intros v k Hk; [lia|].
  destruct k as [|k]; cbn [le_bytes lookup list_lookup].
  - by rewrite Z.pow_0_r, Z.div_1_r.
  - rewrite IH by lia. do 3 f_equal.
    rewrite Nat2Z.inj_succ, Z.pow_succ_r by lia.
    rewrite Z.div_div by lia. done.
Qed.

Lemma struct_pack_header_length
    (sig : bytes) (version : Z) (key salt : bytes) (n : Z) (delim h : bytes) :
  struct_pack_header sig version key salt n delim = Some h → length h = 74%nat.
Proof.
  assert (∀ size v b, pack_uint size v = Some b → length b = size) as Hlen.
  { intros size v b. unfold pack_uint. case_decide; [|done].
    intros [= <-]. apply le_bytes_length. }
  unfold struct_pack_header.
  destruct (pack_uint 4 version) as [v|] eqn:Hv; [|done].
  destruct (pack_uint 8 n) as [q|] eqn:Hq; [|done].
  cbn [mbind option_bind]. intros [= <-].
  by rewrite !length_app, !pack_s_length, (Hlen _ _ _ Hv), (Hlen _ _ _ Hq).
Qed.

(** ** What [decode] does with an arbitrary raster *)

Section Decode.
Context `{E : Externals}.

Lemma header_of_length (flat_img : list Z) : length (header_of flat_img) = 74%nat.
Proof. unfold header_of. by rewrite length_fmap, length_seq. Qed.

Lemma le_int_nonneg (bs : bytes) : 0 <= le_int bs.
Proof.
  induction bs as [|b bs IH]; cbn [le_int]; [lia|].
  pose proof (byte_val_range b). lia.
Qed.

Lemma read_header (flat_img : list Z) :
  (592 ≤ length flat_img)%nat →
  read_bytes flat_img 0 (HEADER_SIZE * 8) = Return (header_of flat_img).
Proof.
  intros Hlen. change (HEADER_SIZE * 8)%nat with (8 * 74)%nat.
  by rewrite read_bytes_ok by (cbn; lia).
Qed.

(** A raster too short for the header: the [IndexError] of line 302 leaves
    [decode], no handler is in place yet. *)
Lemma decode_flat_short (flat_img : list Z) :
  (length flat_img < 592)%nat → decode_flat flat_img = Raise IndexError.
Proof.
  intros Hlen. unfold decode_flat.
  by rewrite read_bytes_short by (cbn; lia).
Qed.

(** After the signature check has passed, [decode] is the length guard
    followed by [read_payload]. *)
Lemma decode_flat_signed (flat_img : list Z) :
  (592 ≤ length flat_img)%nat →
  has_signature flat_img →
  decode_flat flat_img
  = if decide (payload_length flat_img > len flat_img - 592
               ∨ payload_length flat_img > 10000000)
    then Return None
    else read_payload flat_img (embedded_key flat_img) (payload_length flat_img).
Proof.
  intros Hlen Hsig. unfold decode_flat. rewrite read_header by done.
  cbn [mbind result_bind]. rewrite Hsig.
  cbn [or_raise from_option mbind result_bind].
  rewrite decide_False by (intros Hne; by apply Hne).
  unfold unpack_uint.
  rewrite !decide_True by (rewrite slice_length; rewrite ?header_of_length; lia).
  cbn [or_raise from_option mbind result_bind].
  change (Z.of_nat HEADER_SIZE * 8) with 592.
  fold (payload_length flat_img). fold (embedded_key flat_img).
  case_decide; [done|]. unfold read_payload.
  destruct (read_bytes _ _ _) as [ct|e]; cbn [mbind result_bind try_except].
  - destruct (unframe _ ct) as [m|e]; cbn [mbind result_bind try_except]; [done|].
    by destruct e.
  - by destruct e.
Qed.

(** With the header read, no exception leaves [decode]. *)
Lemma decode_flat_long (flat_img : list Z) :
  (592 ≤ length flat_img)%nat → ∃ r, decode_flat flat_img = Return r.
Proof.
  intros Hlen. unfold decode_flat. rewrite read_header by done.
  cbn [mbind result_bind].
  match goal with
  | |- ∃ r, try_except ?body ?handler = Return r =>
      destruct body as [r|e]; cbn [try_except]; [by exists r | exists None; by destruct e]
  end.
Qed.

(** C4. Once a header with a valid signature has been read, [decode] returns
    [None] whenever the payload length times eight exceeds the capacity left
    after the header or the length exceeds 10,000,000; otherwise it reads
    that many bytes of ciphertext from the low bits that follow the header
    and goes on to unframe them. *)
Theorem payload_length_guard (flat_img : list Z) :
  (592 ≤ length flat_img)%nat →
  has_signature flat_img →
  (payload_length flat_img * 8 > len flat_img - 74 * 8
   ∨ payload_length flat_img > 10000000 →
   decode_flat flat_img = Return None)
  ∧ (payload_length flat_img * 8 <= len flat_img - 74 * 8 →
     payload_length flat_img <= 10000000 →
     ∃ ct, read_bytes flat_img (74 * 8) (Z.to_nat (payload_length flat_img * 8)) = Return ct
           ∧ len ct = payload_length flat_img
           ∧ (∀ k, (k < length ct)%nat → ct !! k = Some (byte_at flat_img (74 * 8) k))
           ∧ decode_flat flat_img
             = try_except (message ← unframe (embedded_key flat_img) ct;
                           Return (Some message))
                          (λ _, Return None)).
Proof.
  intros Hlen Hsig. rewrite (decode_flat_signed _ Hlen Hsig).
  pose proof (le_int_nonneg (slice 58 66 (header_of flat_img))) as Hn.
  fold (payload_length flat_img) in Hn.
  set (n := payload_length flat_img) in *. unfold len.
  split.
  - intros Hover. case_decide as Hguard; [done|].
    unfold read_payload. change (HEADER_SIZE * 8)%nat with 592%nat.
    rewrite read_bytes_short; [done | lia | lia].
  - intros Hfit Hceil. rewrite decide_False by lia.
    exists (byte_at flat_img 592 <$> seq 0 (Z.to_nat n)).
    assert (read_bytes flat_img 592 (Z.to_nat (n * 8))
            = Return (byte_at flat_img 592 <$> seq 0 (Z.to_nat n))) as Hread.
    { replace (Z.to_nat (n * 8)) with (8 * Z.to_nat n)%nat by lia.
      apply read_bytes_ok. lia. }
    change (74 * 8)%nat with 592%nat. split_and!.
    + done.
    + rewrite length_fmap, length_seq. lia.
    + intros k Hk. rewrite length_fmap, length_seq in Hk.
      by rewrite list_lookup_fmap, lookup_seq_lt.
    + unfold read_payload. change (HEADER_SIZE * 8)%nat with 592%nat.
      by rewrite Hread.
Qed.

End Decode.

(** ** The header, packed by [encode] and unpacked by [decode] *)

Section HeaderCodec.
Context `{E : Externals}.

(** The header of lines 214 to 223 is the layout field after field. *)
Lemma header_Return (rnd : randomness) (n : Z) :
  randomness_ok rnd → 0 <= n < 2 ^ 64 →
  header rnd n = Return (header_layout VERSION (random_key rnd) (salt rnd) n).
Proof.
  intros [Hk Hs] Hn. unfold header. rewrite utf8_encode_SIGNATURE.
  cbn [or_raise from_option mbind result_bind].
  rewrite struct_pack_header_layout; [done..| |done]. by vm_compute.
Qed.

Lemma header_length (rnd : randomness) (n : Z) (h : bytes) :
  header rnd n = Return h → length h = 74%nat.
Proof.
  unfold header. rewrite utf8_encode_SIGNATURE.
  cbn [or_raise from_option mbind result_bind].
  destruct (struct_pack_header _ _ _ _ _ _) as [h'|] eqn:Hh; [|done].
  cbn [or_raise from_option]. intros [= <-]. by eapply struct_pack_header_length.
Qed.

(** What [decode] makes of a raster whose first 592 low bits spell a
    header with the signature: the guard of line 328 on the length the
    header holds, then the read of the ciphertext under the key it holds. *)
Lemma decode_flat_header (flat_img : list Z) (h : bytes) :
  read_bytes flat_img 0 (HEADER_SIZE * 8) = Return h →
  take 6 h = SIGNATURE_BYTES →
  decode_flat flat_img
  = if decide (le_int (slice 58 66 h) > len flat_img - 592
               ∨ le_int (slice 58 66 h) > 10000000)
    then Return None
    else read_payload flat_img (slice 10 42 h) (le_int (slice 58 66 h)).
Proof.
  intros Hread Hsig.
  assert (592 ≤ length flat_img)%nat as Hlen.
  { destruct (decide (592 ≤ length flat_img)%nat) as [|Hshort]; [done|].
    rewrite read_bytes_short in Hread; [done | cbn; lia | cbn; lia]. }
  rewrite read_header in Hread by done. injection Hread as Hhead.
  rewrite decode_flat_signed; [|done|].
  - unfold payload_length, embedded_key. by rewrite Hhead.
  - unfold has_signature. rewrite Hhead, Hsig. apply utf8_decode_SIGNATURE_BYTES.
Qed.

(** C7. The header [encode] packs always has 74 bytes. For a 32-byte key,
    a 16-byte salt and a length that fits 64 bits it is packed without
    error, its fields lie at the offsets 0, 6, 10, 42, 58 and 66, the two
    numbers are written with the least significant byte first, and what
    [decode] unpacks from it are the signature, the version, the key, the
    salt and the length: on every raster whose first 592 low bits spell
    this header [decode] passes the signature check, applies the guard of
    line 328 to this length and goes on to read the ciphertext under this
    key. *)
Theorem header_pack_unpack (rnd : randomness) (n : Z) :
  randomness_ok rnd → 0 <= n < 2 ^ 64 →
  (∀ rnd' n' h', header rnd' n' = Return h' → length h' = 74%nat)
  ∧ ∃ h, header rnd n = Return h
    ∧ length h = 74%nat
    ∧ slice 0 6 h = SIGNATURE_BYTES
    ∧ slice 6 10 h = le_bytes 4 VERSION
    ∧ slice 10 42 h = random_key rnd
    ∧ slice 42 58 h = salt rnd
    ∧ slice 58 66 h = le_bytes 8 n
    ∧ slice 66 74 h = DELIMITER
    ∧ (∀ k : nat, (k < 4)%nat →
         byte_val <$> h !! (6 + k)%nat = Some (VERSION / 256 ^ Z.of_nat k mod 256))
    ∧ (∀ k : nat, (k < 8)%nat →
         byte_val <$> h !! (58 + k)%nat = Some (n / 256 ^ Z.of_nat k mod 256))
    ∧ utf8_decode (take 6 h) = Some SIGNATURE
    ∧ unpack_uint 4 (slice 6 10 h) = Some VERSION
    ∧ unpack_uint 8 (slice 58 66 h) = Some n
    ∧ ∀ flat_img : list Z,
        read_bytes flat_img 0 (HEADER_SIZE * 8) = Return h →
        decode_flat flat_img
        = if decide (n > len flat_img - 592 ∨ n > 10000000) then Return None
          else read_payload flat_img (random_key rnd) n.
Proof.
  intros Hrnd Hn. split; [apply header_length|].
  pose proof Hrnd as [Hk Hs].
  exists (header_layout VERSION (random_key rnd) (salt rnd) n).
  destruct (header_layout_fields VERSION (random_key rnd) (salt rnd) n Hk Hs)
    as (Hsig & Hver & Hkey & Hsalt & Hlength & Hdelim).
  assert (∀ size v, 0 <= v < 2 ^ (8 * Z.of_nat size) →
            unpack_uint size (le_bytes size v) = Some v) as Hunpack.
  { intros size v Hr. apply unpack_pack_uint. unfold pack_uint. by rewrite decide_True. }
  assert (∀ (a size k : nat) v,
            slice a (a + size) (header_layout VERSION (random_key rnd) (salt rnd) n)
            = le_bytes size v →
            (k < size)%nat →
            byte_val <$> header_layout VERSION (random_key rnd) (salt rnd) n !! (a + k)%nat
            = Some (v / 256 ^ Z.of_nat k mod 256)) as Hle.
  { intros a size k v Hslice Hlt.
    rewrite <- (lookup_slice _ a (a + size)) by lia.
    rewrite Hslice, le_bytes_lookup by done. cbn.
    by rewrite byte_val_to_byte by (Z.div_mod_to_equations; lia). }
  split_and!.
  - by apply header_Return.
  - by apply header_layout_length.
  - unfold slice. by rewrite drop_0.
  - done.
  - done.
  - done.
  - done.
  - done.
  - intros k Hlt. by apply (Hle 6%nat 4%nat).
  - intros k Hlt. by apply (Hle 58%nat 8%nat).
  - rewrite Hsig. apply utf8_decode_SIGNATURE_BYTES.
  - rewrite Hver. by apply Hunpack.
  - rewrite Hlength. by apply Hunpack.
  - intros flat_img Hread.
    rewrite (decode_flat_header _ _ Hread Hsig), Hkey, Hlength.
    by rewrite le_int_le_bytes by done.
Qed.

End HeaderCodec.

Lemma header_pack_unpack_witness :
  ∃ h, header (E := Reference.externals) Examples.rnd0 37 = Return h
       ∧ length h = 74%nat
       ∧ unpack_uint 4 (slice 6 10 h) = Some VERSION
       ∧ unpack_uint 8 (slice 58 66 h) = Some 37
       ∧ decode_flat (E := Reference.externals) Examples.stego_raster
         = if decide (37 > len Examples.stego_raster - 592 ∨ 37 > 10000000)
           then Return None
           else read_payload (E := Reference.externals) Examples.stego_raster
                  (random_key Examples.rnd0) 37.
Proof.
  destruct (header_pack_unpack (E := Reference.externals) Examples.rnd0 37)
    as (_ & h & Hpack & Hlen & _ & _ & _ & _ & _ & _ & _ & _ & _ & Hv & Hn & Hdec);
    [split; reflexivity | lia |].
  exists h. split; [exact Hpack|]. split; [exact Hlen|]. split; [exact Hv|].
  split; [exact Hn|].
  apply Hdec. vm_compute in Hpack. injection Hpack as <-. by vm_compute.
Defined.

Section Verify.
Context `{E : Externals}.

(** C10. [verify_image] raises for no path and no file system: it returns
    a boolean, which is [True] exactly when [decode] returns a message
    without raising. A missing file, a file that is no image and a raster too
    short for a header make [decode] raise, and [verify_image] return
    [False]. *)
Theorem verify_image_total (image_path : string) (fs : filesystem) :
  ∃ b : bool,
    verify_image image_path fs = (Return b, fs)
    ∧ (b = true ↔ ∃ message, (decode image_path fs).1 = Return (Some message))
    ∧ (fs !! image_path = None → b = false)
    ∧ (fs !! image_path = Some OtherFile → b = false)
    ∧ (∀ e, (decode image_path fs).1 = Raise e → b = false).
Proof.
  unfold verify_image, try_except_M, mbind, M_bind.
  pose proof (decode_read_only fs image_path) as Hfs.
  destruct (decode image_path fs) as [[[m|]|e] fs'] eqn:Hdec; cbn [fst snd] in *; subst fs'.
  - exists true. cbn. split_and!; try done.
    + split; [by exists m | done].
    + intros Hin. by rewrite (decode_missing _ _ Hin) in Hdec.
    + intros Hin. by rewrite (decode_not_image _ _ Hin) in Hdec.
  - exists false. cbn. split_and!; try done.
    split; [done | by intros [m [=]]].
  - exists false. split_and!; try done.
    split; [done | by intros [m [=]]].
Qed.

(** C3, at the failing input. An image of 14 by 14 pixels has 588 channel
    values; [decode] raises [IndexError] on it instead of returning [None]. *)
Theorem decode_tiny_image_raises :
  decode "tiny.png" Examples.tiny_fs = (Raise IndexError, Examples.tiny_fs).
Proof.
  rewrite (decode_run _ _ Examples.tiny_image) by done.
  by rewrite decode_flat_short by (vm_compute; lia).
Qed.

(** The part of C3 the code keeps: once the raster holds a header, whatever
    its content, [decode] returns and does not raise. *)
Lemma decode_long_raster_returns (image_path : string) (fs : filesystem) (img : image) :
  fs !! image_path = Some (ImageFile img) →
  592 <= len (flatten (getdata img)) →
  ∃ r, decode image_path fs = (Return r, fs).
Proof.
  intros Hin Hlen. rewrite (decode_run _ _ _ Hin).
  destruct (decode_flat_long (flatten (getdata img))) as [r ->]; [unfold len in *; lia|].
  by exists r.
Qed.

End Verify.

(** ** The delimiter field *)

Lemma lsb_char_lsb (v w : Z) : lsb v = lsb w → lsb_char v = lsb_char w.
Proof. unfold lsb, lsb_char. by intros ->. Qed.

Lemma lsb_string_ext (flat1 flat2 : list Z) (start count : nat) :
  (∀ i, (start ≤ i)%nat → lsb <$> flat1 !! i = lsb <$> flat2 !! i) →
  lsb_string flat1 start count = lsb_string flat2 start count.
Proof.
  intros Hext. unfold lsb_string. f_equal.
  apply mapM_ext_in. intros i [Hi _]%elem_of_seq. specialize (Hext i Hi).
  destruct (flat1 !! i) as [v|], (flat2 !! i) as [w|]; try done.
  cbn in *. injection Hext as Hvw. by rewrite !str_lsb_char, (lsb_char_lsb v w).
Qed.

Lemma read_bytes_ext (flat1 flat2 : list Z) (start count : nat) :
  (∀ i, (start ≤ i)%nat → lsb <$> flat1 !! i = lsb <$> flat2 !! i) →
  read_bytes flat1 start count = read_bytes flat2 start count.
Proof. intros Hext. unfold read_bytes. by rewrite (lsb_string_ext _ _ _ _ Hext). Qed.

Lemma of_lsbs_fmap (vs : list Z) : of_lsbs vs = foldl (λ acc b, 2 * acc + b) 0 (lsb <$> vs).
Proof.
  unfold of_lsbs. generalize 0.
  induction vs as [|v vs IH]; intros acc; [done|]. cbn. apply IH.
Qed.

Lemma slice_take {A} (l : list A) (a b n : nat) :
  (b ≤ n)%nat → slice a b (take n l) = slice a b l.
Proof.
  intros Hb. unfold slice. rewrite skipn_firstn_comm, take_take. f_equal. lia.
Qed.

(** The header bytes before the delimiter depend on the low bits of the
    first 528 entries only. *)
Lemma header_of_prefix (flat1 flat2 : list Z) :
  lsb <$> take 528 flat1 = lsb <$> take 528 flat2 →
  take 66 (header_of flat1) = take 66 (header_of flat2).
Proof.
  intros Hpre. unfold header_of. rewrite <- !fmap_take.
  apply list_fmap_ext. intros i k [[-> _]%lookup_seq Hi]%lookup_take_Some.
  unfold byte_at. f_equal. rewrite !of_lsbs_fmap. f_equal.
  rewrite <- (slice_take flat1 _ _ 528), <- (slice_take flat2 _ _ 528) by lia.
  by rewrite <- !slice_fmap, Hpre.
Qed.

Section Delimiter.
Context `{E : Externals}.

(** C8, amended. [decode] does not compare the delimiter field with the
    constant: two rasters of one length whose low bits agree outside the
    entries 528 to 591, the ones that carry header bytes 66 to 74, decode to
    the same result. *)
Theorem delimiter_not_checked (flat1 flat2 : list Z) :
  length flat1 = length flat2 →
  lsb <$> take 528 flat1 = lsb <$> take 528 flat2 →
  lsb <$> drop 592 flat1 = lsb <$> drop 592 flat2 →
  decode_flat flat1 = decode_flat flat2.
Proof.
  intros Hlen Hpre Hpost.
  destruct (decide (length flat1 < 592)%nat) as [Hshort|Hlong].
  { by rewrite !decode_flat_short by lia. }
  assert (∀ c, read_bytes flat1 (HEADER_SIZE * 8) c = read_bytes flat2 (HEADER_SIZE * 8) c)
    as Hread.
  { intros c. apply read_bytes_ext. intros i Hi. change (HEADER_SIZE * 8)%nat with 592%nat in Hi.
    replace i with (592 + (i - 592))%nat by lia.
    rewrite <- !lookup_drop, <- !list_lookup_fmap. by rewrite Hpost. }
  pose proof (header_of_prefix _ _ Hpre) as Hhead.
  assert (∀ a b, (b ≤ 66)%nat →
            slice a b (header_of flat1) = slice a b (header_of flat2)) as Hslice.
  { intros a b Hb. rewrite <- (slice_take (header_of flat1) a b 66) by done.
    rewrite <- (slice_take (header_of flat2) a b 66) by done. by rewrite Hhead. }
  assert (take 6 (header_of flat1) = take 6 (header_of flat2)) as Htake.
  { pose proof (Hslice 0%nat 6%nat ltac:(lia)) as H6. unfold slice in H6.
    by rewrite !drop_0 in H6. }
  unfold decode_flat. rewrite !read_header by lia. cbn [mbind result_bind].
  rewrite Htake, !Hslice by lia. unfold len. rewrite Hlen.
  generalize (header_of flat2). intros header_bytes.
  destruct (utf8_decode _) as [signature|]; [|done].
  cbn [or_raise from_option mbind result_bind].
  case_decide; [done|].
  destruct (unpack_uint 4 _) as [version|]; [|done].
  cbn [or_raise from_option mbind result_bind].
  destruct (unpack_uint 8 _) as [data_length|]; [|done].
  cbn [or_raise from_option mbind result_bind].
  case_decide; [done|]. by rewrite Hread.
Qed.

End Delimiter.

Lemma delimiter_not_checked_witness :
  decode_flat (E := Reference.externals) Examples.bad_delimiter_raster
  = decode_flat (E := Reference.externals) Examples.stego_raster.
Proof.
  apply (delimiter_not_checked (E := Reference.externals)); by vm_compute.
Defined.

(** The base-64 encoding of the recorded run, on its key and at the three
    paddings. *)
Example b64encode_key :
  Recorded.b64encode Recorded.key
  = list_byte_of_string "QUFBQUFBQUFBQUFBQUFBQUFBQUFBQUFBQUFBQUFBQUE=".
Proof. reflexivity. Qed.

Example b64encode_padding :
  Recorded.b64encode (list_byte_of_string "hi") = list_byte_of_string "aGk="
  ∧ Recorded.b64encode (list_byte_of_string "h") = list_byte_of_string "aA=="
  ∧ Recorded.b64encode [xfb; xff; xbe] = list_byte_of_string "-_--".
Proof. split_and!; reflexivity. Qed.

(** C8, as stated, fails. The raster is the one [encode] wrote for the
    message "hi" into a 24 by 24 image, with the low bits of its delimiter
    field cleared; what it carries past the header is the token Fernet made
    in the recorded run. It has the signature and a delimiter field of eight
    zero bytes, and [decode] returns the message. *)
Lemma wrong_delimiter_decodes :
  (592 ≤ length Recorded.bad_delimiter_raster)%nat
  ∧ has_signature Recorded.bad_delimiter_raster
  ∧ take 6 (header_of Recorded.bad_delimiter_raster) = SIGNATURE_BYTES
  ∧ slice 66 74 (header_of Recorded.bad_delimiter_raster) = replicate 8 x00
  ∧ slice 66 74 (header_of Recorded.bad_delimiter_raster) ≠ DELIMITER
  ∧ read_bytes Recorded.bad_delimiter_raster (HEADER_SIZE * 8) 800
    = Return Recorded.token_hi
  ∧ flatten (getdata Recorded.bad_delimiter_image) = Recorded.bad_delimiter_raster
  ∧ decode_flat (E := Recorded.externals) Recorded.bad_delimiter_raster
    = Return (Some (str_of "hi"))
  ∧ decode (E := Recorded.externals) "bad.png" Recorded.bad_fs
    = (Return (Some (str_of "hi")), Recorded.bad_fs).
Proof. split_and!; try by vm_compute. vm_compute. lia. Qed.

Lemma payload_length_guard_witness :
  decode_flat (E := Reference.externals) Examples.overlong_raster = Return None
  ∧ ∃ ct, read_bytes Examples.stego_raster (74 * 8)
            (Z.to_nat (payload_length Examples.stego_raster * 8)) = Return ct
          ∧ len ct = payload_length Examples.stego_raster.
Proof.
  split.
  - apply (payload_length_guard (E := Reference.externals) Examples.overlong_raster);
      [vm_compute; lia | by vm_compute | left; by vm_compute].
  - destruct (payload_length_guard (E := Reference.externals)
                Examples.stego_raster) as [_ Hread];
      [vm_compute; lia | by vm_compute |].
    destruct Hread as (ct & Hct & Hlen & _); [by vm_compute | by vm_compute |].
    exists ct. split; [exact Hct | exact Hlen].
Defined.

(** ** The capacity check *)

Section Capacity.
Context `{E : Externals}.

(** C2. For an input image that exists and a payload that could be framed,
    [encode] raises the [ValueError] of line 232 exactly when the framed
    payload needs more bits than [width * height * 3]; a payload of at most
    that many bits, and so one of exactly that many, makes [encode] return
    [True]; and when the error is raised the file system, the input raster
    in it included, is as it was. *)
Theorem capacity_boundary (fs : filesystem) (input_path output_path : string)
    (message : str) (link : option str) (watermark_text : option string)
    (style : watermark_style) (rnd : randomness) (img : image) (D : bytes) :
  fs !! input_path = Some (ImageFile img) →
  data_to_hide message (default [] link) rnd = Return D →
  ((encode input_path output_path message link watermark_text style rnd fs).1
     = Raise ValueError
   ↔ 8 * len D > width img * height img * 3)
  ∧ (8 * len D <= width img * height img * 3 →
     (encode input_path output_path message link watermark_text style rnd fs).1
     = Return true)
  ∧ (8 * len D = width img * height img * 3 →
     (encode input_path output_path message link watermark_text style rnd fs).1
     = Return true)
  ∧ ((encode input_path output_path message link watermark_text style rnd fs).1
       = Raise ValueError →
     (encode input_path output_path message link watermark_text style rnd fs).2 = fs
     ∧ (encode input_path output_path message link watermark_text style rnd fs).2
         !! input_path = Some (ImageFile img)).
Proof.
  intros Hin HD.
  destruct (encode_run fs input_path output_path message link watermark_text style
              rnd img D Hin HD) as (flat' & _ & Hrun).
  rewrite Hrun. case_decide as Hcap; cbn [fst snd].
  - split_and!; [done | lia | lia | done].
  - split_and!; [|done|done|done]. split; [done | lia].
Qed.

End Capacity.

Lemma capacity_boundary_witness :
  (encode (E := Reference.externals) "in.png" "out.png" (str_of "hi") None None ()
     Examples.rnd0 CapacityExamples.exact_fs).1 = Return true
  ∧ (encode (E := Reference.externals) "in.png" "out.png" (str_of "hi") None None ()
       Examples.rnd0 CapacityExamples.small_fs).1 = Raise ValueError
  ∧ (encode (E := Reference.externals) "in.png" "out.png" (str_of "hi") None None ()
       Examples.rnd0 CapacityExamples.small_fs).2 = CapacityExamples.small_fs.
Proof.
  pose proof (capacity_boundary (E := Reference.externals)
                CapacityExamples.exact_fs "in.png" "out.png" (str_of "hi") None None ()
                Examples.rnd0 CapacityExamples.exact_img CapacityExamples.hi_data
                eq_refl eq_refl) as (_ & _ & Hexact & _).
  pose proof (capacity_boundary (E := Reference.externals)
                CapacityExamples.small_fs "in.png" "out.png" (str_of "hi") None None ()
                Examples.rnd0 CapacityExamples.small_img CapacityExamples.hi_data
                eq_refl eq_refl) as (Hiff & _ & _ & Hsame).
  assert ((encode (E := Reference.externals) "in.png" "out.png" (str_of "hi") None None ()
             Examples.rnd0 CapacityExamples.small_fs).1 = Raise ValueError) as Hraise.
  { apply Hiff. vm_compute. reflexivity. }
  split; [apply Hexact; vm_compute; reflexivity|].
  split; [exact Hraise | exact (proj1 (Hsame Hraise))].
Defined.

(** ** What the embedding changes *)

Lemma embed_value_byte (b : byte) :
  embed_value (byte_val b) (ord "0") = byte_val b - byte_val b mod 2
  ∧ embed_value (byte_val b) (ord "1") = byte_val b - byte_val b mod 2 + 1.
Proof. by destruct b. Qed.

Lemma testbit_small (v k : Z) : 0 <= v < 256 → 8 <= k → Z.testbit v k = false.
Proof.
  intros Hv Hk. destruct (decide (v = 0)) as [-> | Hne]; [apply Z.bits_0|].
  apply Z.bits_above_log2; [lia|].
  assert (Z.log2 v < 8); [|lia]. apply Z.log2_lt_pow2; lia.
Qed.

(** The stored value differs from the entry by at most one and has its bits
    above the lowest. *)
Lemma embed_value_close (v c : Z) :
  0 <= v < 256 → is_bit c →
  Z.abs (embed_value v c - v) <= 1
  ∧ 0 <= embed_value v c < 256
  ∧ ∀ k, 1 <= k → Z.testbit (embed_value v c) k = Z.testbit v k.
Proof.
  intros Hv Hc. split; [|split].
  - rewrite <- (byte_val_to_byte v Hv).
    destruct (embed_value_byte (to_byte v)) as [H0 H1].
    destruct Hc as [-> | ->]; [rewrite H0 | rewrite H1]; Z.div_mod_to_equations; lia.
  - rewrite <- (byte_val_to_byte v Hv).
    destruct (embed_value_byte (to_byte v)) as [H0 H1].
    pose proof (byte_val_range (to_byte v)).
    destruct Hc as [-> | ->]; [rewrite H0 | rewrite H1]; Z.div_mod_to_equations; lia.
  - intros k Hk. unfold embed_value. rewrite Z.lor_spec, Z.land_spec.
    assert (Z.testbit (c - ord "0") k = false) as ->.
    { destruct Hc as [-> | ->]; [apply Z.bits_0|].
      change (ord "1" - ord "0") with 1. apply Z.bits_above_log2; [lia | by cbn; lia]. }
    rewrite orb_false_r.
    destruct (decide (8 <= k)) as [Hbig|Hsmall].
    + by rewrite testbit_small by done.
    + assert (k = 1 ∨ k = 2 ∨ k = 3 ∨ k = 4 ∨ k = 5 ∨ k = 6 ∨ k = 7) as Hcases by lia.
      assert (Z.testbit 254 k = true) as ->; [|by rewrite andb_true_r].
      by destruct Hcases as [-> | [-> | [-> | [-> | [-> | [-> | ->]]]]]].
Qed.

Section Frame.
Context `{E : Externals} `{!ExternalsLaws E}.

(** C5. When [encode] succeeds, the raster of the output file has the
    length of the raster the message was hidden in; each of its first
    [len(header + ciphertext) * 8] entries differs from the original entry by
    at most one and agrees with it on every bit above the lowest; every
    entry from that index on is the original entry. *)
Theorem embedding_touches_low_bits_only
    (fs : filesystem) (input_path output_path : string)
    (message : str) (link : option str) (watermark_text : option string)
    (style : watermark_style) (rnd : randomness) (img : image) (D : bytes) :
  fs !! input_path = Some (ImageFile img) →
  image_ok img →
  data_to_hide message (default [] link) rnd = Return D →
  8 * len D <= width img * height img * 3 →
  ∃ out,
    (encode input_path output_path message link watermark_text style rnd fs).2
      !! png_path output_path = Some (ImageFile out)
    ∧ length (flatten (getdata out))
      = length (flatten (getdata (carrier img watermark_text style)))
    ∧ ∀ (j : nat) (v : Z),
        flatten (getdata (carrier img watermark_text style)) !! j = Some v →
        ∃ v', flatten (getdata out) !! j = Some v'
              ∧ (Z.of_nat j < 8 * len D →
                 Z.abs (v' - v) <= 1
                 ∧ ∀ k, 1 <= k → Z.testbit v' k = Z.testbit v k)
              ∧ (8 * len D <= Z.of_nat j → v' = v).
Proof.
  intros Hin Himg HD Hfit.
  destruct (encode_run fs input_path output_path message link watermark_text style
              rnd img D Hin HD) as (flat' & Hrun & ->).
  rewrite decide_False by lia. cbn [snd].
  assert (image_ok (carrier img watermark_text style)) as [Hsize Hbands].
  { unfold carrier. destruct (truthy _); [by apply add_watermark_ok | done]. }
  apply flatten_bands_ok in Hbands.
  destruct (embed_loop_spec (bit_string D)
              (flatten (getdata (carrier img watermark_text style))) 0
              (bit_string_is_bit D)) as (flat'' & Hrun' & Hlen & Hget).
  rewrite Hrun in Hrun'. injection Hrun' as <-.
  exists (Image (width img) (height img) (regroup flat')).
  cbn [getdata].
  rewrite (flatten_regroup (length (getdata (carrier img watermark_text style))))
    by (by rewrite Hlen, flatten_length).
  split_and!; [apply lookup_insert_eq | done |].
  intros j v Hv. rewrite Hget, Hv, bit_string_length, Nat.sub_0_r.
  pose proof (Forall_lookup_1 _ _ _ _ Hbands Hv) as Hrange. cbn beta in Hrange.
  case_decide as Hj.
  - destruct (lookup_lt_is_Some_2 (bit_string D) j) as [c Hc];
      [rewrite bit_string_length; lia|].
    rewrite Hc. cbn [mbind option_bind].
    pose proof (Forall_lookup_1 _ _ _ _ (bit_string_is_bit D) Hc) as Hbit.
    destruct (embed_value_close v c Hrange Hbit) as (Habs & _ & Hbits).
    exists (embed_value v c). split_and!; [done | done |].
    unfold len. lia.
  - exists v. split_and!; [done | unfold len; lia | done].
Qed.

End Frame.

Lemma embedding_touches_low_bits_only_witness :
  ∃ out,
    (encode (E := Reference.externals) "in.png" "out.png" (str_of "hi") None None ()
       Examples.rnd0 Examples.fs0).2 !! "out.png"%string = Some (ImageFile out)
    ∧ length (flatten (getdata out)) = 1200%nat.
Proof.
  destruct (embedding_touches_low_bits_only (E := Reference.externals)
              Examples.fs0 "in.png" "out.png" (str_of "hi") None None ()
              Examples.rnd0 Examples.img0 CapacityExamples.hi_data)
    as (out & Hout & Hlen & _).
  - reflexivity.
  - split; [reflexivity|]. apply Forall_replicate. cbn. lia.
  - reflexivity.
  - vm_compute. discriminate.
  - exists out. split; [exact Hout|]. rewrite Hlen. reflexivity.
Defined.

(** ** The layout of the hidden region *)

Lemma bits_msb_first_lookup (v : Z) (k : nat) :
  (k < 8)%nat →
  bits_msb_first v !! k = Some (bit_char (Z.testbit v (Z.of_nat (7 - k)))).
Proof.
  intros Hk. unfold bits_msb_first.
  do 8 (destruct k as [|k]; [done|]). lia.
Qed.

Lemma bit_string_lookup (D : bytes) (j k : nat) (b : byte) :
  D !! j = Some b → (k < 8)%nat →
  bit_string D !! (8 * j + k)%nat
  = Some (bit_char (Z.testbit (byte_val b) (Z.of_nat (7 - k)))).
Proof.
  revert j. induction D as [|b0 D IH]; intros j Hb Hk; [done|].
  change (bit_string (b0 :: D)) with (format_08b (byte_val b0) ++ bit_string D).
  destruct j as [|j].
  - injection Hb as ->. rewrite lookup_app_l by (rewrite format_08b_length; lia).
    rewrite format_08b_byte. replace (8 * 0 + k)%nat with k by lia.
    by apply bits_msb_first_lookup.
  - rewrite lookup_app_r by (rewrite format_08b_length; lia).
    rewrite format_08b_length.
    replace (8 * S j + k - 8)%nat with (8 * j + k)%nat by lia.
    by apply IH.
Qed.

Lemma embed_value_bit_char (v : Z) (t : bool) :
  embed_value v (bit_char t) = Z.lor (Z.land v 0xFE) (Z.b2z t).
Proof. by destruct t. Qed.

(** A byte read from eight entries: the low bit of the first entry is its
    most significant bit. *)
Lemma byte_at_msb_first (flat_img : list Z) (start k : nat) (v0 v1 v2 v3 v4 v5 v6 v7 : Z) :
  slice (start + k * 8) (start + k * 8 + 8) flat_img = [v0; v1; v2; v3; v4; v5; v6; v7] →
  byte_val (byte_at flat_img start k)
  = 128 * lsb v0 + 64 * lsb v1 + 32 * lsb v2 + 16 * lsb v3
    + 8 * lsb v4 + 4 * lsb v5 + 2 * lsb v6 + lsb v7.
Proof.
  intros Hslice. unfold byte_at. rewrite Hslice.
  pose proof (of_lsbs_range [v0; v1; v2; v3; v4; v5; v6; v7]) as Hr.
  change (2 ^ Z.of_nat (length [v0; v1; v2; v3; v4; v5; v6; v7])) with 256 in Hr.
  rewrite byte_val_to_byte by done.
  unfold of_lsbs, lsb. cbn [foldl]. lia.
Qed.

Section Layout.
Context `{E : Externals}.

(** What [decode] extracts from a raster with the signature whose length
    field passes the guard: the key from the header bytes 10 to 41, and as
    many ciphertext bytes as the length field says, byte by byte from entry
    592 on. *)
Lemma decode_flat_extracts (flat_img : list Z) :
  (592 ≤ length flat_img)%nat →
  has_signature flat_img →
  8 * payload_length flat_img <= len flat_img - 592 →
  payload_length flat_img <= 10000000 →
  decode_flat flat_img
  = try_except
      (message ← unframe (embedded_key flat_img)
                   (byte_at flat_img 592
                      <$> seq 0 (Z.to_nat (payload_length flat_img)));
       Return (Some message))
      (λ _, Return None).
Proof.
  intros Hlen Hsig Hfit Hceil.
  pose proof (le_int_nonneg (slice 58 66 (header_of flat_img))) as Hnn.
  fold (payload_length flat_img) in Hnn.
  rewrite decode_flat_signed by done.
  rewrite decide_False by lia.
  unfold read_payload.
  replace (Z.to_nat (payload_length flat_img * 8))
    with (8 * Z.to_nat (payload_length flat_img))%nat by lia.
  change (HEADER_SIZE * 8)%nat with 592%nat.
  rewrite read_bytes_ok by (unfold len in *; lia).
  done.
Qed.

(** C6. The hidden region [encode] writes is the header followed by the
    ciphertext; bit [k] (counted from the most significant) of its byte [j]
    is stored in the low bit of entry [8 * j + k] of the raster of the
    output file, the other bits of the entry staying as they were. [decode]
    is the inverse: from any raster with the signature whose length field
    passes the guard it takes the key from the header bytes and the
    ciphertext byte by byte from entry 592 on, each byte put together from
    the low bits of eight consecutive entries, the first of them the most
    significant; on the file [encode] wrote the header bytes it reads are
    the header, the bytes it reads from entry 592 on are the ciphertext, and
    what it returns is what decrypting that ciphertext under the key of the
    header gives ([None] when the ciphertext is longer than 10,000,000
    bytes). *)
Theorem hidden_region_layout (fs : filesystem) (input_path output_path : string)
    (message : str) (link : option str) (watermark_text : option string)
    (style : watermark_style) (rnd : randomness) (img : image) (D : bytes) :
  fs !! input_path = Some (ImageFile img) →
  len (getdata (carrier img watermark_text style)) = width img * height img →
  randomness_ok rnd →
  data_to_hide message (default [] link) rnd = Return D →
  8 * len D <= width img * height img * 3 →
  ∃ (out : image) (h ct : bytes),
    encode input_path output_path message link watermark_text style rnd fs
    = (Return true, <[png_path output_path := ImageFile out]> fs)
    ∧ header rnd (len ct) = Return h
    ∧ encrypted_data message (default [] link) rnd = Return ct
    ∧ D = h ++ ct
    ∧ length h = HEADER_SIZE
    ∧ (∀ (j k : nat) (b : byte),
         D !! j = Some b → (k < 8)%nat →
         ∃ v v',
           flatten (getdata (carrier img watermark_text style)) !! (8 * j + k)%nat = Some v
           ∧ flatten (getdata out) !! (8 * j + k)%nat = Some v'
           ∧ v' = Z.lor (Z.land v 0xFE) (Z.b2z (Z.testbit (byte_val b) (Z.of_nat (7 - k))))
           ∧ lsb v' = Z.b2z (Z.testbit (byte_val b) (Z.of_nat (7 - k))))
    ∧ (∀ flat_img : list Z,
         (592 ≤ length flat_img)%nat →
         has_signature flat_img →
         8 * payload_length flat_img <= len flat_img - 592 →
         payload_length flat_img <= 10000000 →
         decode_flat flat_img
         = try_except
             (message ← unframe (embedded_key flat_img)
                          (byte_at flat_img 592
                             <$> seq 0 (Z.to_nat (payload_length flat_img)));
              Return (Some message))
             (λ _, Return None))
    ∧ (∀ (flat_img : list Z) (start k : nat) (v0 v1 v2 v3 v4 v5 v6 v7 : Z),
         slice (start + k * 8) (start + k * 8 + 8) flat_img
         = [v0; v1; v2; v3; v4; v5; v6; v7] →
         byte_val (byte_at flat_img start k)
         = 128 * lsb v0 + 64 * lsb v1 + 32 * lsb v2 + 16 * lsb v3
           + 8 * lsb v4 + 4 * lsb v5 + 2 * lsb v6 + lsb v7)
    ∧ header_of (flatten (getdata out)) = h
    ∧ byte_at (flatten (getdata out)) 592 <$> seq 0 (length ct) = ct
    ∧ decode (png_path output_path) (<[png_path output_path := ImageFile out]> fs)
      = (if decide (len ct > 10000000) then Return None
         else try_except
                (message ← unframe (random_key rnd) ct; Return (Some message))
                (λ _, Return None),
         <[png_path output_path := ImageFile out]> fs).
Proof.
  intros Hin Hcar Hrnd HD Hfit.
  destruct (encode_run fs input_path output_path message link watermark_text style
              rnd img D Hin HD) as (flat' & Hrun & Henc).
  rewrite decide_False in Henc by lia.
  set (flat_img := flatten (getdata (carrier img watermark_text style))) in *.
  assert (length flat_img = (3 * length (getdata (carrier img watermark_text style)))%nat)
    as Hflat by apply flatten_length.
  destruct (data_to_hide_inv _ _ _ _ Hrnd HD) as (ct & Hct & Hn & HDeq).
  set (h := header_layout VERSION (random_key rnd) (salt rnd) (len ct)) in *.
  assert (length h = 74%nat) as Hh by (apply header_layout_length; apply Hrnd).
  destruct (embed_loop_spec (bit_string D) flat_img 0 (bit_string_is_bit D))
    as (flat'' & Hrun' & Hlen & Hget).
  rewrite Hrun in Hrun'. injection Hrun' as <-.
  assert (flatten (regroup flat') = flat') as Hre.
  { apply (flatten_regroup (length (getdata (carrier img watermark_text style)))). lia. }
  unfold len in Hfit, Hcar.
  assert (8 * length D ≤ length flat_img)%nat as Hfit' by lia.
  assert (read_bytes flat' 0 (HEADER_SIZE * 8) = Return h) as Hread_h.
  { subst D. pose proof (read_bytes_embedded flat_img flat' [] h ct) as Hr.
    cbn [app length Nat.mul] in Hr. rewrite Hh in Hr. by apply Hr. }
  assert (read_bytes flat' 592 (8 * length ct) = Return ct) as Hread_ct.
  { subst D. pose proof (read_bytes_embedded flat_img flat' h ct []) as Hr.
    rewrite app_nil_r, Hh in Hr. by apply Hr. }
  assert (length D = (74 + length ct)%nat) as HlenD.
  { rewrite HDeq, length_app, Hh. done. }
  assert (header_of flat' = h) as Hhead.
  { rewrite read_header in Hread_h by lia. congruence. }
  assert (byte_at flat' 592 <$> seq 0 (length ct) = ct) as Hbytes.
  { rewrite read_bytes_ok in Hread_ct by lia. congruence. }
  destruct Hrnd as [Hk Hs].
  destruct (header_layout_fields VERSION (random_key rnd) (salt rnd) (len ct) Hk Hs)
    as (Hsig & _ & Hkey & _ & Hlength & _). fold h in Hsig, Hkey, Hlength.
  assert (payload_length flat' = len ct) as Hpl.
  { unfold payload_length. rewrite Hhead, Hlength.
    apply le_int_le_bytes. by change (2 ^ (8 * Z.of_nat 8)) with (2 ^ 64). }
  exists (Image (width img) (height img) (regroup flat')), h, ct.
  cbn [getdata]. rewrite Hre. split_and!.
  - done.
  - by apply header_Return.
  - done.
  - done.
  - done.
  - intros j k b Hb Hk8. pose proof (lookup_lt_Some _ _ _ Hb) as Hj.
    destruct (lookup_lt_is_Some_2 flat_img (8 * j + k)) as [v Hv]; [lia|].
    exists v, (embed_value v (bit_char (Z.testbit (byte_val b) (Z.of_nat (7 - k))))).
    split_and!.
    + done.
    + rewrite Hget, decide_True by (rewrite bit_string_length; lia).
      rewrite Hv, Nat.sub_0_r, (bit_string_lookup D j k b Hb Hk8). done.
    + apply embed_value_bit_char.
    + unfold lsb. rewrite land_embed_value by apply is_bit_char.
      by destruct (Z.testbit _ _).
  - apply decode_flat_extracts.
  - intros flat start k. apply byte_at_msb_first.
  - done.
  - done.
  - rewrite (decode_run _ _ (Image (width img) (height img) (regroup flat')))
      by apply lookup_insert_eq.
    cbn [getdata]. rewrite Hre. f_equal.
    case_decide as Hbig.
    + rewrite decode_flat_signed; [|lia|].
      * rewrite decide_True; [done|]. right. by rewrite Hpl.
      * unfold has_signature. rewrite Hhead, Hsig. apply utf8_decode_SIGNATURE_BYTES.
    + rewrite decode_flat_extracts.
      * unfold embedded_key. rewrite Hhead, Hkey, Hpl.
        replace (Z.to_nat (len ct)) with (length ct) by (unfold len; lia).
        by rewrite Hbytes.
      * lia.
      * unfold has_signature. rewrite Hhead, Hsig. apply utf8_decode_SIGNATURE_BYTES.
      * rewrite Hpl. unfold len. lia.
      * lia.
Qed.

End Layout.

Lemma hidden_region_layout_witness :
  ∃ out,
    encode (E := Reference.externals) "in.png" "out.png" (str_of "hi") None None ()
      Examples.rnd0 Examples.fs0
    = (Return true,
       <[png_path (E := Reference.externals) "out.png" := ImageFile out]> Examples.fs0)
    ∧ header_of (flatten (getdata out))
      = header_layout VERSION (random_key Examples.rnd0) (salt Examples.rnd0)
          (len Examples.hi_ciphertext)
    ∧ byte_at (flatten (getdata out)) 592 <$> seq 0 (length Examples.hi_ciphertext)
      = Examples.hi_ciphertext
    ∧ (decode (E := Reference.externals) (png_path (E := Reference.externals) "out.png")
         (<[png_path (E := Reference.externals) "out.png" := ImageFile out]> Examples.fs0)).1
      = Return (Some (str_of "hi")).
Proof.
  destruct (hidden_region_layout (E := Reference.externals) Examples.fs0 "in.png"
              "out.png" (str_of "hi") None None () Examples.rnd0 Examples.img0
              CapacityExamples.hi_data)
    as (out & h & ct & Henc & Hh & Hct & _ & _ & _ & _ & _ & Hhead & Hbytes & Hdec).
  - reflexivity.
  - reflexivity.
  - split; reflexivity.
  - reflexivity.
  - vm_compute. discriminate.
  - injection Hct as <-.
    unfold header in Hh. cbn in Hh. injection Hh as <-.
    exists out. split; [exact Henc|]. split; [exact Hhead|]. split; [exact Hbytes|].
    rewrite Hdec. reflexivity.
Defined.

(** ** Round trips *)

Lemma utf8_encode_char_ascii (c : Z) :
  0 <= c < 128 → utf8_encode_char c = Some [to_byte c].
Proof. intros Hc. unfold utf8_encode_char. by rewrite decide_True. Qed.

Lemma utf8_encode_ascii (s : str) :
  Forall (λ c, 0 <= c < 128) s → utf8_encode s = Some (to_byte <$> s).
Proof.
  unfold utf8_encode. induction 1 as [|c s Hc _ IH]; [done|].
  rewrite mapM_cons, utf8_encode_char_ascii by done.
  cbn [mbind option_bind].
  destruct (mapM utf8_encode_char s) as [chunks|]; [|done].
  cbn [mbind option_bind] in *. injection IH as IH.
  cbn [concat]. by rewrite IH.
Qed.

Lemma utf8_encode_cons (c : Z) (s : str) (chunk bs : bytes) :
  utf8_encode_char c = Some chunk → utf8_encode s = Some bs →
  utf8_encode (c :: s) = Some (chunk ++ bs).
Proof.
  unfold utf8_encode. rewrite mapM_cons. intros ->.
  destruct (mapM utf8_encode_char s) as [chunks|]; [|done].
  cbn [mbind option_bind]. by intros [= <-].
Qed.

(** Encoding undoes decoding: the decoder accepts the encoder's output
    only. *)
Lemma utf8_encode_decode (bs : bytes) (s : str) :
  utf8_decode bs = Some s → utf8_encode s = Some bs.
Proof.
  remember (length bs) as n eqn:Hn. revert bs s Hn.
  induction n as [n IH] using lt_wf_ind. intros bs s Hn.
  destruct bs as [|b0 r0]; [by intros [= <-]|].
  pose proof (byte_val_range b0) as Hb0.
  cbn [utf8_decode]. cbv zeta. repeat case_decide.
  - destruct (utf8_decode r0) as [s'|] eqn:Hs'; [|done]. intros [= <-].
    apply (utf8_encode_cons _ _ [b0]).
    + rewrite utf8_encode_char_ascii by lia. by rewrite to_byte_val.
    + apply (IH (length r0)); [cbn in Hn; lia | done | done].
  - destruct r0 as [|b1 r1]; [done|].
    pose proof (byte_val_range b1) as Hb1.
    unfold is_cont. case_bool_decide as Hc1; [|done].
    destruct (utf8_decode r1) as [s'|] eqn:Hs'; [|done]. intros [= <-].
    apply (utf8_encode_cons _ _ [b0; b1]).
    + unfold utf8_encode_char.
      rewrite decide_False by (Z.div_mod_to_equations; lia).
      rewrite decide_True by (Z.div_mod_to_equations; lia).
      replace (0xC0 + (byte_val b0 mod 32 * 64 + byte_val b1 mod 64) / 64)
        with (byte_val b0) by (Z.div_mod_to_equations; lia).
      replace (0x80 + (byte_val b0 mod 32 * 64 + byte_val b1 mod 64) mod 64)
        with (byte_val b1) by (Z.div_mod_to_equations; lia).
      by rewrite !to_byte_val.
    + apply (IH (length r1)); [cbn in Hn; lia | done | done].
  - destruct r0 as [|b1 [|b2 r2]]; [done..|].
    pose proof (byte_val_range b1) as Hb1. pose proof (byte_val_range b2) as Hb2.
    unfold is_cont.
    case_bool_decide as Hc1; [|done]. case_bool_decide as Hc2; [|done].
    case_bool_decide as Hmin; [|done]. case_bool_decide as Hsur; [done|].
    cbn [andb negb].
    destruct (utf8_decode r2) as [s'|] eqn:Hs'; [|done]. intros [= <-].
    set (c := byte_val b0 mod 16 * 4096 + byte_val b1 mod 64 * 64 + byte_val b2 mod 64) in *.
    apply (utf8_encode_cons _ _ [b0; b1; b2]).
    + unfold utf8_encode_char.
      rewrite decide_False by (Z.div_mod_to_equations; lia).
      rewrite decide_False by (Z.div_mod_to_equations; lia).
      rewrite decide_True by (subst c; Z.div_mod_to_equations; lia).
      rewrite decide_False by done.
      replace (0xE0 + c / 4096) with (byte_val b0) by (subst c; Z.div_mod_to_equations; lia).
      replace (0x80 + c / 64 mod 64) with (byte_val b1)
        by (subst c; Z.div_mod_to_equations; lia).
      replace (0x80 + c mod 64) with (byte_val b2) by (subst c; Z.div_mod_to_equations; lia).
      by rewrite !to_byte_val.
    + apply (IH (length r2)); [cbn in Hn; lia | done | done].
  - destruct r0 as [|b1 [|b2 [|b3 r3]]]; [done..|].
    pose proof (byte_val_range b1) as Hb1. pose proof (byte_val_range b2) as Hb2.
    pose proof (byte_val_range b3) as Hb3.
    unfold is_cont.
    case_bool_decide as Hc1; [|done]. case_bool_decide as Hc2; [|done].
    case_bool_decide as Hc3; [|done]. case_bool_decide as Hrange; [|done].
    cbn [andb].
    destruct (utf8_decode r3) as [s'|] eqn:Hs'; [|done]. intros [= <-].
    set (c := byte_val b0 mod 8 * 262144 + byte_val b1 mod 64 * 4096
              + byte_val b2 mod 64 * 64 + byte_val b3 mod 64) in *.
    apply (utf8_encode_cons _ _ [b0; b1; b2; b3]).
    + unfold utf8_encode_char.
      rewrite decide_False by lia. rewrite decide_False by lia.
      rewrite decide_False by lia. rewrite decide_True by lia.
      replace (0xF0 + c / 262144) with (byte_val b0)
        by (subst c; Z.div_mod_to_equations; lia).
      replace (0x80 + c / 4096 mod 64) with (byte_val b1)
        by (subst c; Z.div_mod_to_equations; lia).
      replace (0x80 + c / 64 mod 64) with (byte_val b2)
        by (subst c; Z.div_mod_to_equations; lia).
      replace (0x80 + c mod 64) with (byte_val b3) by (subst c; Z.div_mod_to_equations; lia).
      by rewrite !to_byte_val.
    + apply (IH (length r3)); [cbn in Hn; lia | done | done].
  - done.
Qed.

(** The signature check passes exactly when the first six header bytes are
    the bytes of "CELFIE". *)
Lemma has_signature_iff (flat_img : list Z) :
  has_signature flat_img ↔ take 6 (header_of flat_img) = SIGNATURE_BYTES.
Proof.
  unfold has_signature. split.
  - intros H%utf8_encode_decode. rewrite utf8_encode_SIGNATURE in H. congruence.
  - intros ->. apply utf8_decode_SIGNATURE_BYTES.
Qed.

Section RoundTrip.
Context `{E : Externals} `{!ExternalsLaws E}.

(** Every text without a lone surrogate can be framed, as long as the
    ciphertext length fits the 64 bits of the header field. *)
Lemma data_to_hide_defined (message link : str) (rnd : randomness) :
  randomness_ok rnd →
  Forall scalar_value message → Forall scalar_value link →
  ∃ ct, encrypted_data message link rnd = Return ct
        ∧ (len ct < 2 ^ 64 → ∃ D, data_to_hide message link rnd = Return D).
Proof.
  intros Hrnd Hm Hl.
  assert (is_Some (utf8_encode (full_message message link))) as [mb Hmb].
  { apply utf8_encode_is_Some. unfold full_message. case_decide; [done|].
    rewrite !Forall_app. split_and!; try done.
    - repeat constructor; unfold scalar_value; lia.
    - apply Forall_forall. intros c Hc. vm_compute in Hc.
      unfold scalar_value.
      repeat (apply elem_of_cons in Hc as [-> | Hc]; [lia|]).
      by apply elem_of_nil in Hc. }
  eexists. split; [by apply encrypted_data_intro|].
  intros Hn. eexists. apply data_to_hide_intro; [done | by apply encrypted_data_intro | done].
Qed.

(** C1, amended. For an input image, a message and an optional link whose
    payload could be framed, if the raster holds the framed payload then
    [encode] succeeds, and [decode] of the file it wrote returns: when the
    ciphertext (the framed payload less its 74 header bytes) is at most
    10,000,000 bytes long, exactly the message if no link or an empty one
    was given, and the message followed by a newline, "LINK:" and the link
    otherwise; [None] when the ciphertext is longer. *)
Theorem round_trip (fs : filesystem) (input_path output_path : string)
    (message : str) (link : option str) (watermark_text : option string)
    (style : watermark_style) (rnd : randomness) (img : image) (D : bytes) :
  fs !! input_path = Some (ImageFile img) →
  image_ok img →
  randomness_ok rnd →
  data_to_hide message (default [] link) rnd = Return D →
  8 * len D <= width img * height img * 3 →
  (encode input_path output_path message link watermark_text style rnd fs).1 = Return true
  ∧ (len D - 74 <= 10000000 →
     (link = None ∨ link = Some [] →
      (decode (png_path output_path)
         (encode input_path output_path message link watermark_text style rnd fs).2).1
      = Return (Some message))
     ∧ (∀ l, link = Some l → l ≠ [] →
        (decode (png_path output_path)
           (encode input_path output_path message link watermark_text style rnd fs).2).1
        = Return (Some (message ++ [10] ++ str_of "LINK:" ++ l))))
  ∧ (len D - 74 > 10000000 →
     (decode (png_path output_path)
        (encode input_path output_path message link watermark_text style rnd fs).2).1
     = Return None).
Proof.
  intros Hin Himg Hrnd HD Hfit.
  destruct (decode_after_encode fs input_path output_path message link watermark_text
              style rnd img D Hin Himg Hrnd HD Hfit) as [Henc Hdec].
  split_and!; [done | |].
  - intros Hceil. rewrite decide_False in Hdec by lia. split.
    + intros [-> | ->]; by rewrite Hdec.
    + intros l -> Hl. rewrite Hdec. cbn [default from_option].
      unfold full_message. by rewrite decide_False.
  - intros Hover. by rewrite decide_True in Hdec.
Qed.

(** C9, amended. An empty link is no link: [encode] with [link=""] is
    [encode] without the argument, the bytes it compresses are the UTF-8
    encoding of the message alone, and when the raster holds the framed
    payload [decode] of the file it wrote returns the bare message if the
    ciphertext is at most 10,000,000 bytes long, and [None] if it is
    longer. *)
Theorem empty_link_is_no_link (fs : filesystem) (input_path output_path : string)
    (message : str) (watermark_text : option string)
    (style : watermark_style) (rnd : randomness) (img : image) (D : bytes) :
  fs !! input_path = Some (ImageFile img) →
  image_ok img →
  randomness_ok rnd →
  data_to_hide message [] rnd = Return D →
  8 * len D <= width img * height img * 3 →
  encode input_path output_path message (Some []) watermark_text style rnd fs
  = encode input_path output_path message None watermark_text style rnd fs
  ∧ full_message message [] = message
  ∧ message_bytes message [] = or_raise UnicodeEncodeError (utf8_encode message)
  ∧ (encode input_path output_path message (Some []) watermark_text style rnd fs).1
    = Return true
  ∧ (len D - 74 <= 10000000 →
     (decode (png_path output_path)
        (encode input_path output_path message (Some []) watermark_text style rnd fs).2).1
     = Return (Some message))
  ∧ (len D - 74 > 10000000 →
     (decode (png_path output_path)
        (encode input_path output_path message (Some []) watermark_text style rnd fs).2).1
     = Return None).
Proof.
  intros Hin Himg Hrnd HD Hfit.
  destruct (decode_after_encode fs input_path output_path message (Some []) watermark_text
              style rnd img D Hin Himg Hrnd HD Hfit) as [Henc Hdec].
  split_and!; [done | done | done | done | |].
  - intros Hceil. by rewrite decide_False in Hdec by lia.
  - intros Hover. by rewrite decide_True in Hdec.
Qed.

End RoundTrip.

(** ** The ceiling of line 328 *)

Lemma lcg_text_length (n : nat) (x : Z) : length (lcg_text n x) = n.
Proof. revert x. induction n as [|n IH]; intros x; cbn [lcg_text length]; [done | by rewrite IH]. Qed.

Lemma lcg_text_ascii (n : nat) (x : Z) : Forall (λ c, 0 <= c < 128) (lcg_text n x).
Proof.
  revert x. induction n as [|n IH]; intros x; cbn [lcg_text]; constructor; [|done].
  apply Z.mod_pos_bound. lia.
Qed.

Example lcg_text_start : lcg_text 8 42 = [0; 32; 11; 73; 28; 48; 3; 57].
Proof. reflexivity. Qed.

(** On the reference instance a message of [n] characters below 128 gives
    a ciphertext of [n + 35] bytes and a framed payload of [n + 109]. When
    that is more than the ceiling, [encode] succeeds on a raster that is
    large enough and [decode] returns [None]. *)
Lemma over_ceiling (message : str) (p : nat) (w h : Z) (link : option str) :
  default [] link = [] →
  Forall (λ c, 0 <= c < 128) message →
  10000000 < len message + 35 →
  Z.of_nat p = w * h →
  8 * (len message + 109) <= w * h * 3 →
  len message + 35 < 2 ^ 64 →
  (encode (E := Reference.externals) "in.png" "out.png" message link None ()
     Examples.rnd0 {[ "in.png"%string := ImageFile (Image w h (replicate p (0, 0, 0))) ]}).1
  = Return true
  ∧ (decode (E := Reference.externals) "out.png"
       (encode (E := Reference.externals) "in.png" "out.png" message link None ()
          Examples.rnd0
          {[ "in.png"%string := ImageFile (Image w h (replicate p (0, 0, 0))) ]}).2).1
    = Return None.
Proof.
  intros Hlink Hascii Hn Hp Hfit H64.
  set (ct := Reference.encrypt (random_key Examples.rnd0) ()
               (Reference.compress (to_byte <$> message))).
  set (D := header_layout VERSION (random_key Examples.rnd0) (salt Examples.rnd0) (len ct)
            ++ ct).
  assert (randomness_ok Examples.rnd0) as Hrnd by (split; reflexivity).
  assert (len ct = len message + 35) as Hct.
  { unfold len, ct, Reference.encrypt, Reference.compress.
    cbn [length]. rewrite length_app. cbn [length].
    rewrite length_fmap.
    change (length (random_key Examples.rnd0)) with 32%nat. lia. }
  assert (len D = len message + 109) as HlenD.
  { unfold D, len in *. rewrite length_app, header_layout_length by apply Hrnd. lia. }
  assert (data_to_hide (E := Reference.externals) message (default [] link)
            Examples.rnd0 = Return D) as HD.
  { rewrite Hlink. apply data_to_hide_intro; [done | | lia].
    apply (encrypted_data_intro (E := Reference.externals)).
    unfold full_message. rewrite decide_True by done.
    by apply utf8_encode_ascii. }
  destruct (decode_after_encode (E := Reference.externals)
              {[ "in.png"%string := ImageFile (Image w h (replicate p (0, 0, 0))) ]}
              "in.png" "out.png" message link None () Examples.rnd0
              (Image w h (replicate p (0, 0, 0))) D) as [Henc Hdec].
  - apply lookup_singleton_eq.
  - split; cbn [getdata width height].
    + unfold len. rewrite length_replicate. done.
    + apply Forall_replicate. cbn. lia.
  - done.
  - done.
  - cbn [width height]. lia.
  - split; [done|]. rewrite decide_True in Hdec by lia. exact Hdec.
Qed.

(** C1, as stated, fails. The message is a text of 10,000,000 characters
    that does not compress, the raster of 120,000,000 entries holds its
    framed payload and [encode] returns [True]; [decode] returns [None],
    not the message: the ciphertext is longer than 10,000,000 bytes. (On
    the reference instance it has 10,000,035 bytes. Under zlib and Fernet
    the text, seven random bits a character, keeps some 8.75 million bytes
    compressed and the token, in base 64, takes four thirds of that: about
    11.7 million bytes, 93 million bits.) And a link given as the empty
    string is not appended. *)
Lemma round_trip_fails_over_ceiling :
  ((encode (E := Reference.externals) "in.png" "out.png" CeilingExamples.big_message
      None None () Examples.rnd0 CeilingExamples.big_fs).1 = Return true
   ∧ (decode (E := Reference.externals) "out.png"
        (encode (E := Reference.externals) "in.png" "out.png" CeilingExamples.big_message
           None None () Examples.rnd0 CeilingExamples.big_fs).2).1 = Return None)
  ∧ (decode (E := Reference.externals) "out.png"
       (encode (E := Reference.externals) "in.png" "out.png" (str_of "hi")
          (Some []) None () Examples.rnd0 Examples.fs0).2).1
    = Return (Some (str_of "hi")).
Proof.
  split.
  - assert (len CeilingExamples.big_message = 10000000) as Hlen.
    { unfold len, CeilingExamples.big_message. rewrite lcg_text_length. lia. }
    apply (over_ceiling CeilingExamples.big_message (Z.to_nat 40000000) 8000 5000 None);
      [reflexivity | apply lcg_text_ascii | lia..].
  - by vm_compute.
Qed.

(** C9, as stated, fails in its last part. With the empty link and a text
    of 12,000,000 characters that does not compress, [encode] returns
    [True] on a raster of 135,000,000 entries that holds the framed
    payload, and [decode] returns [None], not the bare message: the
    ciphertext is longer than 10,000,000 bytes (12,000,035 on the reference
    instance, about 14 million under zlib and Fernet). *)
Lemma empty_link_fails_over_ceiling :
  (encode (E := Reference.externals) "in.png" "out.png" CeilingExamples.bigger_message
     (Some []) None () Examples.rnd0 CeilingExamples.wide_fs).1 = Return true
  ∧ (decode (E := Reference.externals) "out.png"
       (encode (E := Reference.externals) "in.png" "out.png" CeilingExamples.bigger_message
          (Some []) None () Examples.rnd0 CeilingExamples.wide_fs).2).1 = Return None.
Proof.
  assert (len CeilingExamples.bigger_message = 12000000) as Hlen.
  { unfold len, CeilingExamples.bigger_message. rewrite lcg_text_length. lia. }
  apply (over_ceiling CeilingExamples.bigger_message (Z.to_nat 45000000) 9000 5000 (Some []));
    [reflexivity | apply lcg_text_ascii | lia..].
Qed.

Lemma round_trip_witness :
  (decode (E := Reference.externals) "out.png"
     (encode (E := Reference.externals) "in.png" "out.png"
        [0x4F60; 0x597D; 10; 0x1F600] (Some (str_of "http://x")) None ()
        Examples.rnd0 Examples.fs0).2).1
  = Return (Some ([0x4F60; 0x597D; 10; 0x1F600] ++ [10] ++ str_of "LINK:" ++ str_of "http://x")).
Proof.
  edestruct (round_trip (E := Reference.externals) Examples.fs0 "in.png" "out.png"
               [0x4F60; 0x597D; 10; 0x1F600] (Some (str_of "http://x")) None ()
               Examples.rnd0 Examples.img0) as (_ & Hdec & _).
  - reflexivity.
  - split; [reflexivity|]. apply Forall_replicate. cbn. lia.
  - split; reflexivity.
  - vm_compute. reflexivity.
  - vm_compute. discriminate.
  - destruct Hdec as [_ Hlink]; [vm_compute; discriminate|].
    exact (Hlink (str_of "http://x") eq_refl ltac:(discriminate)).
Defined.

Lemma empty_link_is_no_link_witness :
  encode (E := Reference.externals) "in.png" "out.png" (str_of "hi") (Some []) None ()
    Examples.rnd0 Examples.fs0
  = encode (E := Reference.externals) "in.png" "out.png" (str_of "hi") None None ()
      Examples.rnd0 Examples.fs0
  ∧ (decode (E := Reference.externals) "out.png"
       (encode (E := Reference.externals) "in.png" "out.png" (str_of "hi") (Some []) None ()
          Examples.rnd0 Examples.fs0).2).1
    = Return (Some (str_of "hi")).
Proof.
  destruct (empty_link_is_no_link (E := Reference.externals) Examples.fs0 "in.png" "out.png"
              (str_of "hi") None () Examples.rnd0 Examples.img0 CapacityExamples.hi_data)
    as (Hsame & _ & _ & _ & Hdec & _).
  - reflexivity.
  - split; [reflexivity|]. apply Forall_replicate. cbn. lia.
  - split; reflexivity.
  - reflexivity.
  - vm_compute. discriminate.
  - split; [exact Hsame | apply Hdec; vm_compute; discriminate].
Defined.

(** * Further properties of the code *)

(** ** The outcomes of [encode] *)

Section EncodeOutcomes.
Context `{E : Externals}.


(** The value [encode] returns or the exception it raises, for an existing
    image. *)
Lemma encode_fst (fs : filesystem) (input_path output_path : string)
    (message : str) (link : option str) (watermark_text : option string)
    (style : watermark_style) (rnd : randomness) (img : image) :
  fs !! input_path = Some (ImageFile img) →
  (encode input_path output_path message link watermark_text style rnd fs).1
  = match data_to_hide message (default [] link) rnd with
    | Raise e => Raise e
    | Return D =>
        if decide (8 * len D > width img * height img * 3) then Raise ValueError
        else Return true
    end.
Proof.
  intros Hin. destruct (data_to_hide _ _ _) as [D|e] eqn:HD.
  - destruct (encode_run fs input_path output_path message link watermark_text style
                rnd img D Hin HD) as (flat' & _ & ->).
    by case_decide.
  - unfold encode, encode_with, mbind, M_bind, os_path_exists, Image_open, lift, raise,
      Image_save.
    rewrite Hin. rewrite bool_decide_eq_true_2 by by eexists.
    cbn [negb]. rewrite Hin. unfold binary_data. by rewrite HD.
Qed.




(** X3. [encode] either raises and leaves the file system as it was, or
    returns [True] and has written one file, an image at the output path
    with the extension forced to [.png]; it never returns [False]. *)
Theorem encode_writes_one_file (fs : filesystem) (input_path output_path : string)
    (message : str) (link : option str) (watermark_text : option string)
    (style : watermark_style) (rnd : randomness) :
  (∃ e, encode input_path output_path message link watermark_text style rnd fs
        = (Raise e, fs))
  ∨ (∃ img', encode input_path output_path message link watermark_text style rnd fs
             = (Return true, <[png_path output_path := ImageFile img']> fs)).
Proof.
  unfold encode, encode_with, mbind, M_bind, os_path_exists, Image_open, lift, raise,
    Image_save.
  destruct (fs !! input_path) as [[img|]|] eqn:Hin.
  - rewrite bool_decide_eq_true_2 by by eexists. cbn [negb]. rewrite Hin.
    destruct (binary_data _ _ _) as [bits|e']; [|left; by eexists].
    case_decide; [left; by eexists|].
    destruct (embed_loop _ _ _) as [flat'|e']; [|left; by eexists].
    rewrite bool_decide_eq_true_2; [right; by eexists|].
    rewrite lookup_insert_eq. by eexists.
  - rewrite bool_decide_eq_true_2 by by eexists. cbn [negb]. rewrite Hin.
    left; by eexists.
  - rewrite bool_decide_eq_false_2; [left; by eexists|]. by intros [? ?].
Qed.

End EncodeOutcomes.



(** ** The file [encode] writes *)

Lemma regroup_length (k : nat) (flat_img : list Z) :
  length flat_img = (3 * k)%nat → length (regroup flat_img) = k.
Proof.
  revert flat_img. induction k as [|k IH]; intros flat_img Hlen.
  - by destruct flat_img.
  - destruct flat_img as [|r [|g [|b rest]]]; cbn in Hlen; try lia.
    cbn [regroup length]. rewrite IH; [done | lia].
Qed.

Lemma regroup_ok (k : nat) (flat_img : list Z) :
  length flat_img = (3 * k)%nat →
  Forall (λ v, 0 <= v < 256) flat_img → Forall pixel_ok (regroup flat_img).
Proof.
  revert flat_img. induction k as [|k IH]; intros flat_img Hlen Hok.
  - destruct flat_img; [constructor | done].
  - destruct flat_img as [|r [|g [|b rest]]]; cbn in Hlen; try lia.
    apply Forall_cons in Hok as [Hr Hok]. apply Forall_cons in Hok as [Hg Hok].
    apply Forall_cons in Hok as [Hb Hok].
    cbn [regroup]. apply Forall_cons. split; [done|]. apply IH; [lia | done].
Qed.

(** The loop of lines 241 to 243 keeps channel values channel values. *)
Lemma embed_loop_ok (bits : str) (flat_img flat' : list Z) (i : nat) :
  Forall is_bit bits →
  Forall (λ v, 0 <= v < 256) flat_img →
  embed_loop flat_img i bits = Return flat' →
  length flat' = length flat_img ∧ Forall (λ v, 0 <= v < 256) flat'.
Proof.
  intros Hbits Hok Hrun.
  destruct (embed_loop_spec bits flat_img i Hbits) as (flat'' & Hrun' & Hlen & Hget).
  rewrite Hrun in Hrun'. injection Hrun' as <-. split; [done|].
  apply Forall_lookup. intros j x. rewrite Hget. case_decide.
  - destruct (flat_img !! j) as [v|] eqn:Hv; [|done].
    destruct (bits !! (j - i)%nat) as [c|] eqn:Hc; [|done].
    cbn. intros [= <-]. apply embed_value_close.
    + apply (Forall_lookup_1 _ _ _ _ Hok Hv).
    + apply (Forall_lookup_1 _ _ _ _ Hbits Hc).
  - intros Hx. apply (Forall_lookup_1 _ _ _ _ Hok Hx).
Qed.

Section EncodeOutput.
Context `{E : Externals} `{!ExternalsLaws E}.

Lemma carrier_ok (img : image) (watermark_text : option string) (style : watermark_style) :
  image_ok img →
  image_ok (carrier img watermark_text style)
  ∧ width (carrier img watermark_text style) = width img
  ∧ height (carrier img watermark_text style) = height img.
Proof.
  intros Himg. unfold carrier. destruct (truthy _); [|done].
  split; [by apply add_watermark_ok | apply add_watermark_size].
Qed.

(** The run of [encode] that succeeds, with the image it writes. *)
Lemma encode_output (fs : filesystem) (input_path output_path : string)
    (message : str) (link : option str) (watermark_text : option string)
    (style : watermark_style) (rnd : randomness) (img : image) :
  fs !! input_path = Some (ImageFile img) →
  image_ok img →
  (encode input_path output_path message link watermark_text style rnd fs).1 = Return true →
  ∃ img',
    encode input_path output_path message link watermark_text style rnd fs
    = (Return true, <[png_path output_path := ImageFile img']> fs)
    ∧ width img' = width img ∧ height img' = height img ∧ image_ok img'.
Proof.
  intros Hin Himg Hret. rewrite (encode_fst _ _ _ _ _ _ _ _ _ Hin) in Hret.
  destruct (data_to_hide _ _ _) as [D|e] eqn:HD; [|done].
  destruct (encode_run fs input_path output_path message link watermark_text style
              rnd img D Hin HD) as (flat' & Hrun & ->).
  case_decide; [done|]. eexists. split; [done|]. cbn [width height].
  split; [done|]. split; [done|].
  destruct (carrier_ok img watermark_text style Himg) as ([Hsize Hbands] & Hw & Hh).
  destruct (embed_loop_ok _ _ _ _ (bit_string_is_bit D)
              (flatten_bands_ok _ Hbands) Hrun) as [Hlen Hok].
  rewrite flatten_length in Hlen.
  split; cbn [width height getdata].
  - unfold len in *. rewrite (regroup_length _ _ Hlen). lia.
  - by apply (regroup_ok _ _ Hlen).
Qed.

(** X4. The file [encode] writes holds an image of the width and height of
    the input, with every band of every pixel a byte, whatever the watermark
    did to the pixels. *)
Theorem encode_output_image (fs : filesystem) (input_path output_path : string)
    (message : str) (link : option str) (watermark_text : option string)
    (style : watermark_style) (rnd : randomness) (img : image) :
  fs !! input_path = Some (ImageFile img) →
  image_ok img →
  (encode input_path output_path message link watermark_text style rnd fs).1 = Return true →
  ∃ img',
    (encode input_path output_path message link watermark_text style rnd fs).2
      !! png_path output_path = Some (ImageFile img')
    ∧ width img' = width img ∧ height img' = height img ∧ image_ok img'.
Proof.
  intros Hin Himg Hret.
  destruct (encode_output _ _ output_path _ _ watermark_text style _ _ Hin Himg Hret)
    as (img' & -> & Hw & Hh & Hok).
  exists img'. split; [apply lookup_insert_eq | done].
Qed.

(** X5. A second [encode] over the file the first one wrote replaces the
    hidden message: [decode] returns the second text, whatever the first
    one was and however long. *)
Theorem encode_again_replaces (fs : filesystem) (input_path output_path next_path : string)
    (message message' : str) (link link' : option str)
    (watermark_text watermark_text' : option string)
    (style style' : watermark_style) (rnd rnd' : randomness) (img : image) (D' : bytes) :
  fs !! input_path = Some (ImageFile img) →
  image_ok img →
  (encode input_path output_path message link watermark_text style rnd fs).1 = Return true →
  randomness_ok rnd' →
  data_to_hide message' (default [] link') rnd' = Return D' →
  8 * len D' <= width img * height img * 3 →
  len D' - 74 <= 10000000 →
  let fs1 := (encode input_path output_path message link watermark_text style rnd fs).2 in
  let fs2 := (encode (png_path output_path) next_path message' link' watermark_text'
                style' rnd' fs1).2 in
  (encode (png_path output_path) next_path message' link' watermark_text' style' rnd' fs1).1
  = Return true
  ∧ (decode (png_path next_path) fs2).1
    = Return (Some (full_message message' (default [] link'))).
Proof.
  intros Hin Himg Hret Hrnd HD Hfit Hceil fs1 fs2. subst fs1 fs2.
  destruct (encode_output _ _ output_path _ _ watermark_text style _ _ Hin Himg Hret)
    as (img' & -> & Hw & Hh & Hok).
  cbn [snd].
  destruct (decode_after_encode (<[png_path output_path:=ImageFile img']> fs)
              (png_path output_path) next_path message' link' watermark_text' style'
              rnd' img' D') as [Henc Hdec]; [apply lookup_insert_eq | done.. | |].
  - by rewrite Hw, Hh.
  - split; [done|]. rewrite Hdec. by rewrite decide_False by lia.
Qed.

(** X6. [verify_image] on the file [encode] wrote returns [True] when the
    ciphertext is at most 10,000,000 bytes long and [False] when it is
    longer. *)
Theorem verify_after_encode (fs : filesystem) (input_path output_path : string)
    (message : str) (link : option str) (watermark_text : option string)
    (style : watermark_style) (rnd : randomness) (img : image) (D : bytes) :
  fs !! input_path = Some (ImageFile img) →
  image_ok img →
  randomness_ok rnd →
  data_to_hide message (default [] link) rnd = Return D →
  8 * len D <= width img * height img * 3 →
  let fs' := (encode input_path output_path message link watermark_text style rnd fs).2 in
  verify_image (png_path output_path) fs'
  = (Return (bool_decide (len D - 74 <= 10000000)), fs').
Proof.
  intros Hin Himg Hrnd HD Hfit fs'. subst fs'.
  destruct (decode_after_encode fs input_path output_path message link watermark_text
              style rnd img D Hin Himg Hrnd HD Hfit) as [_ Hdec].
  unfold verify_image, try_except_M, mbind, M_bind.
  pose proof (decode_read_only
                (encode input_path output_path message link watermark_text style rnd fs).2
                (png_path output_path)) as Hfs.
  destruct (decode _ _) as [r fs'']. cbn [fst snd] in *. subst fs'' r.
  do 2 f_equal. apply bool_decide_ext. case_decide; split; try done; lia.
Qed.

End EncodeOutput.

Lemma encode_output_image_witness :
  ∃ img',
    (encode (E := Reference.externals) "in.png" "out.jpg" (str_of "hi") None None ()
       Examples.rnd0 Examples.fs0).2
      !! png_path (E := Reference.externals) "out.jpg" = Some (ImageFile img')
    ∧ width img' = width Examples.img0 ∧ height img' = height Examples.img0
    ∧ image_ok img'.
Proof.
  apply (encode_output_image (E := Reference.externals) Examples.fs0 "in.png" "out.jpg"
           (str_of "hi") None None () Examples.rnd0 Examples.img0).
  - reflexivity.
  - split; [reflexivity|]. apply Forall_replicate. cbn. lia.
  - vm_compute. reflexivity.
Defined.

Lemma encode_again_replaces_witness :
  (decode (E := Reference.externals) (png_path (E := Reference.externals) "final.png")
     (encode (E := Reference.externals) (png_path (E := Reference.externals) "out.png")
        "final.png" (str_of "hi") None None () Examples.rnd0
        (encode (E := Reference.externals) "in.png" "out.png"
           (str_of "a longer first message") None None () Examples.rnd0 Examples.fs0).2).2).1
  = Return (Some (full_message (str_of "hi") (default [] None))).
Proof.
  apply (encode_again_replaces (E := Reference.externals) Examples.fs0 "in.png" "out.png"
           "final.png" (str_of "a longer first message") (str_of "hi") None None None None
           () () Examples.rnd0 Examples.rnd0 Examples.img0 CapacityExamples.hi_data).
  - reflexivity.
  - split; [reflexivity|]. apply Forall_replicate. cbn. lia.
  - vm_compute. reflexivity.
  - split; reflexivity.
  - reflexivity.
  - vm_compute. discriminate.
  - vm_compute. discriminate.
Defined.

Lemma verify_after_encode_witness :
  verify_image (E := Reference.externals) (png_path (E := Reference.externals) "out.png")
    (encode (E := Reference.externals) "in.png" "out.png" (str_of "hi") None None ()
       Examples.rnd0 Examples.fs0).2
  = (Return (bool_decide (len CapacityExamples.hi_data - 74 <= 10000000)),
     (encode (E := Reference.externals) "in.png" "out.png" (str_of "hi") None None ()
        Examples.rnd0 Examples.fs0).2).
Proof.
  apply (verify_after_encode (E := Reference.externals) Examples.fs0 "in.png" "out.png"
           (str_of "hi") None None () Examples.rnd0 Examples.img0 CapacityExamples.hi_data).
  - reflexivity.
  - split; [reflexivity|]. apply Forall_replicate. cbn. lia.
  - split; reflexivity.
  - reflexivity.
  - vm_compute. discriminate.
Defined.

(** ** The header [encode] writes, as [decode] reads it *)

Section WrittenHeader.
Context `{E : Externals} `{!ExternalsLaws E}.

(** X7. The file [encode] writes carries, in the low bits of its first
    592 channel values, the signature, the random key itself (header bytes
    10 to 41) and the length of the ciphertext: what [decode] needs to
    decrypt travels with the image. *)
Theorem key_travels_with_image (fs : filesystem) (input_path output_path : string)
    (message : str) (link : option str) (watermark_text : option string)
    (style : watermark_style) (rnd : randomness) (img : image) (D : bytes) :
  fs !! input_path = Some (ImageFile img) →
  image_ok img →
  randomness_ok rnd →
  data_to_hide message (default [] link) rnd = Return D →
  8 * len D <= width img * height img * 3 →
  ∃ out,
    (encode input_path output_path message link watermark_text style rnd fs).2
      !! png_path output_path = Some (ImageFile out)
    ∧ has_signature (flatten (getdata out))
    ∧ embedded_key (flatten (getdata out)) = random_key rnd
    ∧ payload_length (flatten (getdata out)) = len D - 74.
Proof.
  intros Hin Himg Hrnd HD Hfit.
  destruct (encode_run fs input_path output_path message link watermark_text style
              rnd img D Hin HD) as (flat' & Hrun & ->).
  rewrite decide_False by lia. cbn [snd].
  eexists. split; [apply lookup_insert_eq|]. cbn [getdata].
  destruct (carrier_ok img watermark_text style Himg) as ([Hsize _] & Hw & Hh).
  destruct (embed_loop_spec (bit_string D)
              (flatten (getdata (carrier img watermark_text style))) 0
              (bit_string_is_bit D)) as (flat'' & Hrun' & Hlen & _).
  rewrite Hrun in Hrun'. injection Hrun' as <-.
  rewrite flatten_length in Hlen. rewrite (flatten_regroup _ _ Hlen).
  destruct (data_to_hide_inv _ _ _ _ Hrnd HD) as (ct & Hct & Hn & ->).
  destruct Hrnd as [Hk Hs].
  set (h := header_layout VERSION (random_key rnd) (salt rnd) (len ct)) in *.
  assert (length h = 74%nat) as Hh' by by apply header_layout_length.
  unfold len in Hfit, Hsize. rewrite length_app, Hh' in Hfit.
  assert (header_of flat' = h) as Hhead.
  { assert (read_bytes flat' 0 (HEADER_SIZE * 8) = Return h) as Hread.
    { pose proof (read_bytes_embedded
                    (flatten (getdata (carrier img watermark_text style))) flat' [] h ct)
        as Hr.
      cbn [app length Nat.mul] in Hr. rewrite Hh' in Hr. apply Hr; [done|].
      rewrite length_app, Hh', flatten_length. lia. }
    rewrite read_header in Hread by lia. congruence. }
  destruct (header_layout_fields VERSION (random_key rnd) (salt rnd) (len ct) Hk Hs)
    as (Hsig & _ & Hkey & _ & Hlength & _). fold h in Hsig, Hkey, Hlength.
  unfold embedded_key, payload_length. rewrite Hhead. split_and!.
  - apply has_signature_iff. by rewrite Hhead.
  - done.
  - rewrite Hlength, le_int_le_bytes by (by change (2 ^ (8 * Z.of_nat 8)) with (2 ^ 64)).
    unfold len. rewrite length_app, Hh'. lia.
Qed.

End WrittenHeader.

Lemma key_travels_with_image_witness :
  ∃ out,
    (encode (E := Reference.externals) "in.png" "out.png" (str_of "hi") None None ()
       Examples.rnd0 Examples.fs0).2
      !! png_path (E := Reference.externals) "out.png" = Some (ImageFile out)
    ∧ has_signature (flatten (getdata out))
    ∧ embedded_key (flatten (getdata out)) = random_key Examples.rnd0
    ∧ payload_length (flatten (getdata out)) = len CapacityExamples.hi_data - 74.
Proof.
  apply (key_travels_with_image (E := Reference.externals) Examples.fs0 "in.png" "out.png"
           (str_of "hi") None None () Examples.rnd0 Examples.img0 CapacityExamples.hi_data).
  - reflexivity.
  - split; [reflexivity|]. apply Forall_replicate. cbn. lia.
  - split; reflexivity.
  - reflexivity.
  - vm_compute. discriminate.
Defined.

(** ** The outcomes of [decode] *)

Section DecodeOutcomes.
Context `{E : Externals}.


(** X9. A raster long enough for a header whose first six header bytes are
    not "CELFIE" decodes to [None]: no exception, and nothing beyond the
    header is read. *)
Theorem decode_flat_unsigned (flat_img : list Z) :
  (592 ≤ length flat_img)%nat →
  take 6 (header_of flat_img) ≠ SIGNATURE_BYTES →
  decode_flat flat_img = Return None.
Proof.
  intros Hlen Hsig. unfold decode_flat. rewrite read_header by done.
  cbn [mbind result_bind].
  destruct (utf8_decode (take 6 (header_of flat_img))) as [signature|] eqn:Hdec; [|done].
  cbn [or_raise from_option mbind result_bind].
  rewrite decide_True; [done|].
  intros ->. by apply Hsig, has_signature_iff.
Qed.

End DecodeOutcomes.

Lemma decode_flat_unsigned_witness :
  decode_flat (E := Reference.externals) MoreExamples.blank_raster = Return None.
Proof.
  apply (decode_flat_unsigned (E := Reference.externals) MoreExamples.blank_raster).
  - vm_compute. lia.
  - vm_compute. discriminate.
Defined.

(** ** The header fields [decode] does not use *)

(** A run of header bytes depends on the low bits of its own entries only. *)
Lemma header_of_slice (flat1 flat2 : list Z) (a b : nat) :
  (a ≤ b ≤ 74)%nat →
  lsb <$> slice (8 * a) (8 * b) flat1 = lsb <$> slice (8 * a) (8 * b) flat2 →
  slice a b (header_of flat1) = slice a b (header_of flat2).
Proof.
  intros Hab Hpre. unfold header_of. rewrite !slice_fmap.
  apply list_fmap_ext. intros i k Hk.
  assert (a ≤ k < b)%nat as Hkb.
  { unfold slice in Hk. apply lookup_take_Some in Hk as [Hk Hi].
    rewrite lookup_drop in Hk. apply lookup_seq in Hk as [-> _]. lia. }
  unfold byte_at. f_equal. rewrite !of_lsbs_fmap. f_equal.
  rewrite <- !slice_fmap. cbn [Nat.add].
  replace (k * 8)%nat with (8 * a + (k - a) * 8)%nat by lia.
  replace (8 * a + (k - a) * 8 + 8)%nat with (8 * a + ((k - a) * 8 + 8))%nat by lia.
  rewrite <- (slice_slice (lsb <$> flat1) (8 * a) (8 * b)) by lia.
  rewrite <- (slice_slice (lsb <$> flat2) (8 * a) (8 * b)) by lia.
  by rewrite (slice_fmap lsb flat1 (8 * a) (8 * b)),
    (slice_fmap lsb flat2 (8 * a) (8 * b)), Hpre.
Qed.

Section UnusedFields.
Context `{E : Externals}.

(** X10. [decode] uses neither the version nor the salt nor the delimiter
    of the header: two rasters of one length whose low bits agree on the
    signature (entries 0 to 47), on the key (80 to 335), on the length
    (464 to 527) and on everything past the header decode to the same
    result. *)
Theorem version_and_salt_not_used (flat1 flat2 : list Z) :
  length flat1 = length flat2 →
  lsb <$> take 48 flat1 = lsb <$> take 48 flat2 →
  lsb <$> slice 80 336 flat1 = lsb <$> slice 80 336 flat2 →
  lsb <$> slice 464 528 flat1 = lsb <$> slice 464 528 flat2 →
  lsb <$> drop 592 flat1 = lsb <$> drop 592 flat2 →
  decode_flat flat1 = decode_flat flat2.
Proof.
  intros Hlen Hsig Hkey Hn Hpost.
  destruct (decide (length flat1 < 592)%nat) as [Hshort|Hlong].
  { by rewrite !decode_flat_short by lia. }
  assert (∀ c, read_bytes flat1 (HEADER_SIZE * 8) c = read_bytes flat2 (HEADER_SIZE * 8) c)
    as Hread.
  { intros c. apply read_bytes_ext. intros i Hi.
    change (HEADER_SIZE * 8)%nat with 592%nat in Hi.
    replace i with (592 + (i - 592))%nat by lia.
    rewrite <- !lookup_drop, <- !list_lookup_fmap. by rewrite Hpost. }
  assert (take 6 (header_of flat1) = take 6 (header_of flat2)) as Htake.
  { pose proof (header_of_slice flat1 flat2 0 6 ltac:(lia)) as H6.
    unfold slice in H6. rewrite !drop_0 in H6. by apply H6. }
  pose proof (header_of_slice flat1 flat2 10 42 ltac:(lia) Hkey) as Hk.
  pose proof (header_of_slice flat1 flat2 58 66 ltac:(lia) Hn) as Hq.
  unfold decode_flat. rewrite !read_header by lia. cbn [mbind result_bind].
  rewrite Htake, Hk, Hq. unfold len. rewrite Hlen.
  assert (∀ flat_img, is_Some (unpack_uint 4 (slice 6 10 (header_of flat_img)))) as Hv.
  { intros flat_img. unfold unpack_uint. rewrite decide_True; [by eexists|].
    rewrite slice_length; rewrite ?header_of_length; lia. }
  destruct (Hv flat1) as [v1 ->], (Hv flat2) as [v2 ->].
  generalize (header_of flat2). intros header_bytes.
  destruct (utf8_decode _) as [signature|]; [|done].
  cbn [or_raise from_option mbind result_bind].
  case_decide; [done|].
  destruct (unpack_uint 8 _) as [data_length|]; [|done].
  cbn [or_raise from_option mbind result_bind].
  case_decide; [done|]. by rewrite Hread.
Qed.

End UnusedFields.

Lemma version_and_salt_not_used_witness :
  decode_flat (E := Reference.externals) MoreExamples.other_fields_raster
  = decode_flat (E := Reference.externals) Examples.stego_raster.
Proof.
  apply (version_and_salt_not_used (E := Reference.externals)); by vm_compute.
Defined.

Example other_fields_raster_decodes :
  slice 6 10 (header_of MoreExamples.other_fields_raster) ≠ le_bytes 4 VERSION
  ∧ slice 42 58 (header_of MoreExamples.other_fields_raster) ≠ salt Examples.rnd0
  ∧ decode_flat (E := Reference.externals) MoreExamples.other_fields_raster
    = Return (Some (str_of "hi")).
Proof. split_and!; by vm_compute. Qed.

(** ** The output path *)

Lemma lower_append (a b : string) : lower (a +:+ b) = (lower a +:+ lower b)%string.
Proof.
  unfold lower. induction a as [|c a IH]; [done|].
  change (String c a +:+ b)%string with (String c (a +:+ b)).
  cbn [list_ascii_of_string fmap list_fmap string_of_list_ascii].
  by rewrite IH.
Qed.

Lemma string_length_append (a b : string) :
  String.length (a +:+ b) = (String.length a + String.length b)%nat.
Proof.
  induction a as [|c a IH]; [done|].
  change (String c a +:+ b)%string with (String c (a +:+ b)).
  cbn [String.length]. by rewrite IH.
Qed.

Lemma substring_all (b : string) : substring 0 (String.length b) b = b.
Proof. induction b as [|c b IH]; [done|]. cbn. by rewrite IH. Qed.

Lemma substring_append (a b : string) :
  substring (String.length a) (String.length b) (a +:+ b) = b.
Proof. induction a as [|c a IH]; [apply substring_all | done]. Qed.

Lemma endswith_append (a b : string) : endswith (a +:+ b) b = true.
Proof.
  unfold endswith. rewrite string_length_append.
  rewrite bool_decide_eq_true_2 by lia.
  replace (String.length a + String.length b - String.length b)%nat
    with (String.length a) by lia.
  rewrite substring_append. cbn [andb]. apply String.eqb_refl.
Qed.

Section OutputPath.
Context `{E : Externals}.

(** X11. The path [encode] saves to ends with [.png] in some
    capitalisation, whatever [os.path.splitext] makes of the path given; a
    path that ends so already is kept, so forcing the extension twice
    changes nothing more. *)
Theorem png_path_is_png (output_path : string) :
  endswith (lower (png_path output_path)) ".png" = true
  ∧ png_path (png_path output_path) = png_path output_path.
Proof.
  assert (endswith (lower (png_path output_path)) ".png" = true) as Hpng.
  { unfold png_path. destruct (endswith (lower output_path) ".png") eqn:Hends; [done|].
    cbn [negb]. rewrite lower_append. apply endswith_append. }
  split; [done|]. unfold png_path at 1. by rewrite Hpng.
Qed.

End OutputPath.

(** ** The position of the watermark *)

(** The lookup of line 118, name by name. *)
Lemma watermark_pos_cases (position : string) (width height text_width text_height : Z) :
  watermark_pos position width height text_width text_height
  = Some (if decide (position = "top-left"%string) then (20, 20)
          else if decide (position = "top-right"%string)
               then (width - text_width - 20, 20)
          else if decide (position = "bottom-left"%string)
               then (20, height - text_height - 20)
          else if decide (position = "center"%string)
               then ((width - text_width) / 2, (height - text_height) / 2)
          else (width - text_width - 20, height - text_height - 20)).
Proof.
  unfold watermark_pos, positions. cbv zeta.
  rewrite (lookup_insert_ne _ "top-left"%string "bottom-right"%string) by done.
  rewrite (lookup_insert_ne _ "top-right"%string "bottom-right"%string) by done.
  rewrite (lookup_insert_ne _ "bottom-left"%string "bottom-right"%string) by done.
  rewrite lookup_insert_eq. cbn [mbind option_bind]. f_equal.
  destruct (decide (position = "top-left"%string)) as [->|H1].
  { by rewrite lookup_insert_eq. }
  rewrite lookup_insert_ne by done.
  destruct (decide (position = "top-right"%string)) as [->|H2].
  { by rewrite lookup_insert_eq. }
  rewrite lookup_insert_ne by done.
  destruct (decide (position = "bottom-left"%string)) as [->|H3].
  { by rewrite lookup_insert_eq. }
  rewrite lookup_insert_ne by done.
  destruct (decide (position = "center"%string)) as [->|H4].
  { rewrite lookup_insert_ne by done. by rewrite lookup_singleton_eq. }
  destruct (decide (position = "bottom-right"%string)) as [->|H5].
  { by rewrite lookup_insert_eq. }
  rewrite lookup_insert_ne by done. by rewrite lookup_singleton_ne.
Qed.

(** X12. When the font measures the text as the box [(x0, y0, x1, y1)]
    with its origin at most 19 pixels from the anchor in both directions,
    and the far corner of the box with a margin of 21 pixels fits the
    image, the position lookup succeeds and each of the five [draw.text]
    calls, the four shadows and the text itself, covers a rectangle inside
    the image, for every position name, known or not. *)
Theorem watermark_inside_image (position : string) (text : str)
    (x0 y0 x1 y1 width height : Z) :
  0 <= x0 <= 19 → 0 <= y0 <= 19 →
  x1 + 21 <= width → y1 + 21 <= height →
  ∃ pos,
    watermark_pos position width height
      (text_size (Some (x0, y0, x1, y1)) text).1
      (text_size (Some (x0, y0, x1, y1)) text).2
    = Some pos
    ∧ Forall (λ call,
                let '(l, t, r, b) := covered (x0, y0, x1, y1) call in
                0 <= l ∧ r <= width ∧ 0 <= t ∧ b <= height)
             (watermark_calls pos text).
Proof.
  intros Hx0 Hy0 Hx1 Hy1. cbn [text_size fst snd].
  rewrite watermark_pos_cases. eexists. split; [done|].
  unfold watermark_calls. cbn [fmap list_fmap app].
  repeat case_decide; cbn [fst snd];
    repeat (apply Forall_cons; split;
            [unfold covered; cbn [xy fst snd]; Z.div_mod_to_equations; lia|]);
    apply Forall_nil_2.
Qed.

(** X13. A position name that is none of the five, a name in another
    capitalisation for one, is taken for "bottom-right". *)
Theorem watermark_unknown_position (position : string)
    (width height text_width text_height : Z) :
  position ∉ ["top-left"; "top-right"; "bottom-left"; "center"]%string →
  watermark_pos position width height text_width text_height
  = watermark_pos "bottom-right" width height text_width text_height.
Proof.
  intros Hpos. rewrite !watermark_pos_cases.
  rewrite !(decide_False (P := "bottom-right"%string = _)) by done.
  assert (position ≠ "top-left"%string ∧ position ≠ "top-right"%string
          ∧ position ≠ "bottom-left"%string ∧ position ≠ "center"%string)
    as (H1 & H2 & H3 & H4).
  { split_and!; intros ->; apply Hpos; repeat constructor. }
  by rewrite !decide_False by done.
Qed.

Lemma watermark_inside_image_witness :
  ∃ pos,
    watermark_pos "bottom-right" 640 480
      (text_size (Some (0, 4, 152, 20)) (str_of "Protected by Celfie")).1
      (text_size (Some (0, 4, 152, 20)) (str_of "Protected by Celfie")).2
    = Some pos
    ∧ Forall (λ call,
                let '(l, t, r, b) := covered (0, 4, 152, 20) call in
                0 <= l ∧ r <= 640 ∧ 0 <= t ∧ b <= 480)
             (watermark_calls pos (str_of "Protected by Celfie")).
Proof.
  apply (watermark_inside_image "bottom-right" (str_of "Protected by Celfie")
           0 4 152 20 640 480); lia.
Defined.

(** The position is computed from the size of the box alone: a box that
    starts 30 rows below the anchor is drawn over the lower edge. *)
Example watermark_ignores_box_origin :
  watermark_pos "bottom-right" 640 480
    (text_size (Some (0, 30, 87, 42)) (str_of "Celfie")).1
    (text_size (Some (0, 30, 87, 42)) (str_of "Celfie")).2
  = Some (533, 448)
  ∧ covered (0, 30, 87, 42) (DrawText (533, 448) (str_of "Celfie") (255, 255, 255))
    = (533, 478, 620, 490).
Proof. split; reflexivity. Qed.

Lemma watermark_unknown_position_witness :
  watermark_pos "Top-Left" 640 480 152 16 = watermark_pos "bottom-right" 640 480 152 16.
Proof.
  apply (watermark_unknown_position "Top-Left" 640 480 152 16).
  intros Hin. repeat (apply elem_of_cons in Hin as [Hin|Hin]; [discriminate|]).
  by apply elem_of_nil in Hin.
Defined.

(** ** The demonstration script *)

(** The loop of lines 27 to 30 picks the first name that exists. *)
Lemma find_input_spec (images : list string) (fs : filesystem) :
  find_input images fs = (Return (head (filter (λ img, is_Some (fs !! img)) images)), fs).
Proof.
  induction images as [|img rest IH]; [done|].
  cbn [find_input]. unfold mbind, M_bind, os_path_exists.
  rewrite filter_cons. case_bool_decide as Hex.
  - by rewrite decide_True by done.
  - by rewrite decide_False by done.
Qed.

Section DemoProperties.
Context `{E : Externals}.

Lemma png_path_demo : png_path "protected_demo.png" = "protected_demo.png"%string.
Proof. reflexivity. Qed.

(** A framed payload is at least as long as its header. *)
Lemma data_to_hide_length (message link : str) (rnd : randomness) (D : bytes) :
  data_to_hide message link rnd = Return D → 74 <= len D.
Proof.
  unfold data_to_hide.
  destruct (encrypted_data message link rnd) as [ct|e]; [|done].
  cbn [mbind result_bind]. unfold header. rewrite utf8_encode_SIGNATURE.
  cbn [or_raise from_option mbind result_bind].
  destruct (struct_pack_header _ _ _ _ _ _) as [h|] eqn:Hh; [|done].
  cbn [or_raise from_option mbind result_bind]. intros [= <-].
  apply struct_pack_header_length in Hh. unfold len. rewrite length_app. lia.
Qed.

(** What a run of [encode] that returns has found. *)
Lemma encode_returns_inv (fs fs' : filesystem) (input_path output_path : string)
    (message : str) (link : option str) (watermark_text : option string)
    (style : watermark_style) (rnd : randomness) (b : bool) :
  encode input_path output_path message link watermark_text style rnd fs = (Return b, fs') →
  ∃ img D,
    fs !! input_path = Some (ImageFile img)
    ∧ b = true
    ∧ data_to_hide message (default [] link) rnd = Return D
    ∧ 8 * len D <= width img * height img * 3.
Proof.
  intros Henc.
  destruct (fs !! input_path) as [[img|]|] eqn:Hin.
  - pose proof (encode_fst fs input_path output_path message link watermark_text style
                  rnd img Hin) as Hfst.
    rewrite Henc in Hfst. cbn [fst] in Hfst.
    destruct (data_to_hide _ _ _) as [D|e]; [|done].
    case_decide; [done|]. injection Hfst as ->.
    exists img, D. split_and!; [done..|lia].
  - revert Henc.
    unfold encode, encode_with, mbind, M_bind, os_path_exists, Image_open, lift, raise,
      Image_save.
    rewrite Hin. rewrite bool_decide_eq_true_2 by by eexists.
    cbn [negb]. by rewrite Hin.
  - revert Henc.
    unfold encode, encode_with, mbind, M_bind, os_path_exists, Image_open, lift, raise,
      Image_save.
    rewrite Hin. rewrite bool_decide_eq_false_2; [done|]. by intros [? ?].
Qed.

(** X14. Without any of the four sample names in the working directory the
    script stops before it encodes, and writes nothing. *)
Theorem main_without_sample (demo_style : watermark_style) (rnd : randomness)
    (fs : filesystem) :
  (∀ img, img ∈ sample_images → fs !! img = None) →
  main demo_style rnd fs = (NoSample, fs).
Proof.
  intros Hnone. unfold main. rewrite find_input_spec.
  destruct (filter _ _) as [|img rest] eqn:Hfound; [done|].
  assert (img ∈ filter (λ img, is_Some (fs !! img)) sample_images) as Himg.
  { rewrite Hfound. constructor. }
  apply list_elem_of_filter in Himg as [[file Hfile] Himg].
  by rewrite (Hnone img Himg) in Hfile.
Qed.

(** X15. Whatever the working directory holds, the script leaves it as it
    is or writes the one file [protected_demo.png]; a sample image is never
    written over. *)
Theorem main_writes_only_demo_file (demo_style : watermark_style) (rnd : randomness)
    (fs : filesystem) :
  (main demo_style rnd fs).2 = fs
  ∨ ∃ img', (main demo_style rnd fs).2
            = <["protected_demo.png"%string := ImageFile img']> fs.
Proof.
  unfold main. rewrite find_input_spec.
  destruct (head _) as [input_image|]; [|by left].
  destruct (encode _ _ _ _ _ _ _ fs) as [[success|e] fs'] eqn:Henc.
  - destruct (encode_returns_inv _ _ _ _ _ _ _ _ _ _ Henc)
      as (img & D & Hin & -> & HD & Hfit).
    destruct (encode_run fs input_image "protected_demo.png" secret_message
                (Some secret_link) (Some "Protected by Celfie"%string) demo_style rnd
                img D Hin HD) as (flat' & _ & Henc').
    rewrite Henc, decide_False in Henc' by lia. injection Henc' as ->.
    rewrite png_path_demo.
    pose proof (decode_read_only
                  (<["protected_demo.png"%string :=
                       ImageFile (Image (width img) (height img) (regroup flat'))]> fs)
                  "protected_demo.png") as Hro.
    destruct (decode _ _) as [[r|e] fs'']; cbn [snd] in *; subst fs''; right; by eexists.
  - pose proof (encode_raise_untouched fs input_image "protected_demo.png" secret_message
                  (Some secret_link) (Some "Protected by Celfie"%string) demo_style rnd e)
      as Hraise.
    rewrite Henc in Hraise. left. by apply Hraise.
Qed.

Context `{!ExternalsLaws E}.

(** X16. The script never reads [decoded_message] unbound at line 86: on
    a file system whose images are rasters of their size, once [encode] has
    returned, the file it wrote is long enough for a header, so [decode]
    returns and does not raise. *)
Theorem main_never_unbound (demo_style : watermark_style) (rnd : randomness)
    (fs : filesystem) :
  (∀ path img, fs !! path = Some (ImageFile img) → image_ok img) →
  ∀ e, (main demo_style rnd fs).1 ≠ Unbound e ∧ (main demo_style rnd fs).1 ≠ Propagated e.
Proof.
  intros Hfs e. unfold main. rewrite find_input_spec.
  destruct (head _) as [input_image|]; [|done].
  destruct (encode _ _ _ _ _ _ _ fs) as [[success|e'] fs'] eqn:Henc; [|done].
  destruct (encode_returns_inv _ _ _ _ _ _ _ _ _ _ Henc)
    as (img & D & Hin & -> & HD & Hfit).
  pose proof (data_to_hide_length _ _ _ _ HD) as HlenD.
  destruct (encode_output fs input_image "protected_demo.png" secret_message
              (Some secret_link) (Some "Protected by Celfie"%string) demo_style rnd img
              Hin (Hfs _ _ Hin)) as (img' & Henc' & Hw & Hh & [Hsize _]).
  { by rewrite Henc. }
  rewrite Henc in Henc'. injection Henc' as ->. rewrite png_path_demo.
  destruct (decode_long_raster_returns "protected_demo.png"
              (<["protected_demo.png"%string := ImageFile img']> fs) img') as [r ->].
  - apply lookup_insert_eq.
  - unfold len in *. rewrite flatten_length. lia.
  - done.
Qed.

(** X17. With a sample image large enough for the payload, the script
    encodes the first sample name that exists, in the order of its list,
    into [protected_demo.png] and decodes from it the message, a newline,
    "LINK:" and the link; it reports the image as encoded. *)
Theorem main_round_trip (demo_style : watermark_style) (rnd : randomness)
    (fs : filesystem) (input_image : string) (img : image) (D : bytes) :
  head (filter (λ img, is_Some (fs !! img)) sample_images) = Some input_image →
  fs !! input_image = Some (ImageFile img) →
  image_ok img →
  randomness_ok rnd →
  data_to_hide secret_message secret_link rnd = Return D →
  8 * len D <= width img * height img * 3 →
  len D - 74 <= 10000000 →
  ∃ img',
    main demo_style rnd fs
    = (Finished (Some (secret_message ++ [10] ++ str_of "LINK:" ++ secret_link)) true,
       <["protected_demo.png"%string := ImageFile img']> fs)
    ∧ width img' = width img ∧ height img' = height img.
Proof.
  intros Hfirst Hin Himg Hrnd HD Hfit Hceil. unfold main.
  rewrite find_input_spec, Hfirst.
  destruct (decode_after_encode fs input_image "protected_demo.png" secret_message
              (Some secret_link) (Some "Protected by Celfie"%string) demo_style rnd img D
              Hin Himg Hrnd HD Hfit) as [Henc Hdec].
  destruct (encode_output fs input_image "protected_demo.png" secret_message
              (Some secret_link) (Some "Protected by Celfie"%string) demo_style rnd img
              Hin Himg Henc) as (img' & Henc' & Hw & Hh & _).
  rewrite Henc' in Hdec |- *. rewrite png_path_demo in *. cbn [snd] in Hdec.
  pose proof (decode_read_only (<["protected_demo.png"%string := ImageFile img']> fs)
                "protected_demo.png") as Hro.
  destruct (decode _ _) as [r fs']. cbn [fst snd] in *. subst r fs'.
  rewrite decide_False by lia. exists img'. done.
Qed.

End DemoProperties.

Lemma main_without_sample_witness :
  main (E := Reference.externals) () Examples.rnd0 MoreExamples.other_fs
  = (NoSample, MoreExamples.other_fs).
Proof.
  apply (main_without_sample (E := Reference.externals) () Examples.rnd0
           MoreExamples.other_fs).
  intros img Himg.
  repeat (apply elem_of_cons in Himg as [-> | Himg]; [reflexivity|]).
  by apply elem_of_nil in Himg.
Defined.

Lemma main_never_unbound_witness :
  (main (E := Reference.externals) () Examples.rnd0 MoreExamples.demo_fs).1
  ≠ Unbound IndexError.
Proof.
  apply (main_never_unbound (E := Reference.externals) () Examples.rnd0
           MoreExamples.demo_fs).
  intros path img Hin.
  destruct (decide (path = "sample.png"%string)) as [-> | Hne1].
  { injection Hin as <-. split; [reflexivity|]. apply Forall_replicate. cbn. lia. }
  destruct (decide (path = "test.jpg"%string)) as [-> | Hne2].
  { injection Hin as <-. split; [reflexivity|]. apply Forall_replicate. cbn. lia. }
  unfold MoreExamples.demo_fs in Hin.
  rewrite lookup_insert_ne, lookup_singleton_ne in Hin by done. discriminate.
Defined.

Lemma main_round_trip_witness :
  ∃ img',
    main (E := Reference.externals) () Examples.rnd0 MoreExamples.demo_fs
    = (Finished (Some (secret_message ++ [10] ++ str_of "LINK:" ++ secret_link)) true,
       <["protected_demo.png"%string := ImageFile img']> MoreExamples.demo_fs)
    ∧ width img' = width MoreExamples.sample ∧ height img' = height MoreExamples.sample.
Proof.
  apply (main_round_trip (E := Reference.externals) () Examples.rnd0 MoreExamples.demo_fs
           "sample.png" MoreExamples.sample
           MoreExamples.demo_data).
  - reflexivity.
  - reflexivity.
  - split; [reflexivity|]. apply Forall_replicate. cbn. lia.
  - split; reflexivity.
  - vm_compute. reflexivity.
  - vm_compute. discriminate.
  - vm_compute. discriminate.
Defined.
